(** * Queue metrics of the message broker: [broker/metrics.go]

    A shallow embedding of the broker's queue instrumentation and the
    properties of its two operations, [send] and [receive].

    Conventions of the embedding.
    - A pointer [*metrics] is an [option metrics]: [None] is the nil
      pointer, [Some t] a pointer whose pointee currently holds [t].  Every
      operation returns the pointee's new contents next to the new registry.
    - The package-level vectors [adds] and [latency] form the [registry]:
      finite maps from label values to the child metric.  A
      [prometheus.Counter] or [prometheus.Observer] held by a tracker is the
      label tuple that names its child, because [WithLabelValues] is
      get-or-create and this package never deletes a child.
    - A histogram child is represented by the sequence of values it was asked
      to observe, most recent last.
    - The clock is an input: each call receives the reading [now] that
      [time.Now] or [time.Since] would take during that call, in nanoseconds.
      [time.Duration] is idealised as an unbounded integer and [float64] as a
      rational number.
    - Map keys range over comparable interface values ([Ident]); Go cannot
      hash any other value.  An event is an interface value that is not nil. *)

From Stdlib Require Import ZArith QArith Lia.
From stdpp Require Import gmap strings list fin_maps.

Local Open Scope Z_scope.
Local Open Scope string_scope.

#[local] Set Warnings "-clear-no-such-hyp".

(** ** Metric descriptors (lines 27-52) *)

Definition brokerQueueSubsystem : string := "broker".
Definition queueLatencyKey : string := "queue_duration_seconds".
Definition addsKey : string := "queue_adds".

Definition addLabel : string := "Add".
Definition updateLabel : string := "Update".
Definition deleteLabel : string := "Delete".

(** [prometheus.Opts], restricted to the fields the package sets; the fields
    it leaves out ([Namespace]) take Go's zero value, the empty string. *)
Record Opts := {
  Namespace : string;
  Subsystem : string;
  Name : string;
  Help : string
}.

(** [prometheus.BuildFQName]: the non-empty parts joined by an underscore. *)
Definition BuildFQName (namespace subsystem name : string) : string :=
  if decide (name = "") then ""
  else if decide (namespace ≠ "" ∧ subsystem ≠ "")
       then namespace +:+ "_" +:+ subsystem +:+ "_" +:+ name
  else if decide (namespace ≠ "") then namespace +:+ "_" +:+ name
  else if decide (subsystem ≠ "") then subsystem +:+ "_" +:+ name
  else name.

Definition fqName (o : Opts) : string :=
  BuildFQName (Namespace o) (Subsystem o) (Name o).

(** [prometheus.ExponentialBuckets start factor count]; [None] stands for the
    panic on a count below one, a start that is not positive or a factor that
    is not above one. *)
Fixpoint expBuckets (start factor : Q) (count : nat) : list Q :=
  match count with
  | O => []
  | S n => start :: expBuckets (start * factor)%Q factor n
  end.

Definition ExponentialBuckets (start factor : Q) (count : Z) : option (list Q) :=
  if decide (count < 1) then None
  else if Qle_bool start 0 then None
  else if Qle_bool factor 1 then None
  else Some (expBuckets start factor (Z.to_nat count)).

(** The literal [10e-9]. *)
Definition lit_10e_9 : Q := 10 # (10 ^ 9).

Record HistogramVecDesc := {
  hv_opts : Opts;
  hv_buckets : option (list Q);
  hv_labels : list string
}.

Record CounterVecDesc := {
  cv_opts : Opts;
  cv_labels : list string
}.

Definition latency_desc : HistogramVecDesc := {|
  hv_opts := {| Namespace := ""; Subsystem := brokerQueueSubsystem;
                Name := queueLatencyKey;
                Help := "How long in seconds an event stays in the queue before being requested." |};
  hv_buckets := ExponentialBuckets lit_10e_9 (10 # 1) 10;
  hv_labels := ["name"]
|}.

Definition adds_desc : CounterVecDesc := {|
  cv_opts := {| Namespace := ""; Subsystem := brokerQueueSubsystem;
                Name := addsKey;
                Help := "Total number of events handled by the queue" |};
  cv_labels := ["name"; "type"]
|}.

(** ** Time (package [time], as far as [send] and [receive] use it) *)

(** A reading of the clock, in nanoseconds. *)
Abbreviation Time := Z.
(** [time.Duration], a number of nanoseconds. *)
Abbreviation Duration := Z.

Definition Second : Duration := 1000000000.

(** [time.Since t], when the clock reads [now]. *)
Definition Since (now t : Time) : Duration := now - t.

(** [Duration.Seconds]: whole seconds plus the remaining nanoseconds over
    [1e9]; Go's [/] and [%] on integers truncate toward zero. *)
Definition Seconds (d : Duration) : Q :=
  Qplus (inject_Z (Z.quot d Second)) (Qmake (Z.rem d Second) 1000000000).

(** ** The registry: the package-level [adds] and [latency] (lines 37-58) *)

(** A [prometheus.Counter] obtained from [adds], or a [prometheus.Observer]
    obtained from [latency]: the label values of the child. *)
Abbreviation Counter := (list string).
Abbreviation Observer := (list string).

Record registry := {
  adds : gmap (list string) N;
  latency : gmap (list string) (list Q)
}.

(** [init] registers both vectors, which start without children. *)
Definition init : registry := {| adds := ∅; latency := ∅ |}.

(** [adds.WithLabelValues(lvs...)]: the child for these label values, created
    with count zero when it does not exist yet.  [None] stands for the panic
    of the library when the number of values is not the number of labels of
    the vector.  (The library also refuses a value that is not valid UTF-8;
    queue names are taken to be well-formed text.) *)
Definition adds_WithLabelValues (lvs : list string) (r : registry)
  : option (Counter * registry) :=
  if decide (length lvs = length (cv_labels adds_desc)) then
    match adds r !! lvs with
    | Some _ => Some (lvs, r)
    | None => Some (lvs, {| adds := <[lvs := 0%N]> (adds r); latency := latency r |})
    end
  else None.

(** [latency.WithLabelValues(lvs...)]: likewise, created without
    observations. *)
Definition latency_WithLabelValues (lvs : list string) (r : registry)
  : option (Observer * registry) :=
  if decide (length lvs = length (hv_labels latency_desc)) then
    match latency r !! lvs with
    | Some _ => Some (lvs, r)
    | None => Some (lvs, {| adds := adds r; latency := <[lvs := []]> (latency r) |})
    end
  else None.

(** [c.Add(v)] for a whole, non-negative [v]. *)
Definition Counter_Add (c : Counter) (v : N) (r : registry) : registry :=
  {| adds := alter (N.add v) c (adds r); latency := latency r |}.

(** [c.Inc()]. *)
Definition Counter_Inc (c : Counter) (r : registry) : registry :=
  Counter_Add c 1%N r.

(** [o.Observe(v)]. *)
Definition Observe (o : Observer) (v : Q) (r : registry) : registry :=
  {| adds := adds r; latency := alter (λ obs, (obs ++ [v])%list) o (latency r) |}.

(** What a scrape reads. *)
Definition counterValue (c : Counter) (r : registry) : option N := adds r !! c.
Definition observations (o : Observer) (r : registry) : option (list Q) :=
  latency r !! o.

(** Package [internal/events] is not part of the sources at hand.  What
    [send] uses of it is an interface: the type that [Event.Type] returns,
    with Go's [==] on it, and the three constants that the [switch] names. *)
Class EventKinds (Kind : Type) := {
  Added : Kind;
  Modified : Kind;
  Deleted : Kind
}.

Section Broker.

(** Comparable interface values, the keys of [sentTimes]. *)
Context {Ident : Type} `{Countable Ident}.
Context {Kind : Type} `{EqDecision Kind} `{EventKinds Kind}.

(** An [events.Event] as [send] sees it: the key it is stored under, and
    what its [Type] method returns when [send] calls it. *)
Record Event := { ident : Ident; evType : Kind }.

(** The struct [metrics] (lines 62-69).  The embedded [sync.Mutex] belongs
    to the concurrent model further down. *)
Record metrics := {
  addCounter : Counter;
  updateCounter : Counter;
  deleteCounter : Counter;
  latencyObserver : Observer;
  sentTimes : gmap Ident Time
}.

Definition set_sentTimes (f : gmap Ident Time → gmap Ident Time)
    (t : metrics) : metrics :=
  {| addCounter := addCounter t; updateCounter := updateCounter t;
     deleteCounter := deleteCounter t; latencyObserver := latencyObserver t;
     sentTimes := f (sentTimes t) |}.

(** [newMetrics] (lines 72-90); [None] stands for a panic, and the tracker
    is returned by pointer. *)
Definition newMetrics (name : string) (r : registry)
  : option (option metrics * registry) :=
  '(addCounter, r) ← adds_WithLabelValues [name; addLabel] r;
  let r := Counter_Add addCounter 0 r in
  '(updateCounter, r) ← adds_WithLabelValues [name; updateLabel] r;
  let r := Counter_Add updateCounter 0 r in
  '(deleteCounter, r) ← adds_WithLabelValues [name; deleteLabel] r;
  let r := Counter_Add deleteCounter 0 r in
  '(lattencyObserver, r) ← latency_WithLabelValues [name] r;
  Some (Some {| addCounter := addCounter;
                updateCounter := updateCounter;
                deleteCounter := deleteCounter;
                latencyObserver := lattencyObserver;
                sentTimes := ∅ |}, r).

(** The [switch] of [send] (lines 100-107): the first matching case runs,
    and there is no default. *)
Definition count_kind (t : metrics) (k : Kind) (r : registry) : registry :=
  if decide (k = Added) then Counter_Inc (addCounter t) r
  else if decide (k = Modified) then Counter_Inc (updateCounter t) r
  else if decide (k = Deleted) then Counter_Inc (deleteCounter t) r
  else r.

(** Lines 109-111 of [send]. *)
Definition stamp (t : metrics) (key : Ident) (now : Time) : metrics :=
  match sentTimes t !! key with
  | Some _ => t
  | None => set_sentTimes (insert key now) t
  end.

(** Lines 100-111: what [send] does to a tracker that is not nil, between
    [Lock] and the deferred [Unlock]. *)
Definition send_locked (t : metrics) (evt : Event) (now : Time)
    (r : registry) : metrics * registry :=
  let r := count_kind t (evType evt) r in
  (stamp t (ident evt) now, r).

(** [send] (lines 93-112). *)
Definition send (m : option metrics) (evt : Event) (now : Time)
    (r : registry) : option metrics * registry :=
  match m with
  | None => (None, r)
  | Some t => let '(t, r) := send_locked t evt now r in (Some t, r)
  end.

(** Lines 122-125: likewise for [receive]. *)
Definition receive_locked (t : metrics) (evt : Ident) (now : Time)
    (r : registry) : metrics * registry :=
  match sentTimes t !! evt with
  | Some startTime =>
      let r := Observe (latencyObserver t) (Seconds (Since now startTime)) r in
      (set_sentTimes (delete evt) t, r)
  | None => (t, r)
  end.

(** [receive] (lines 115-126). *)
Definition receive (m : option metrics) (evt : Ident) (now : Time)
    (r : registry) : option metrics * registry :=
  match m with
  | None => (None, r)
  | Some t => let '(t, r) := receive_locked t evt now r in (Some t, r)
  end.

(** The two states of an identity in a tracker. *)
Inductive lifecycle := pending (since : Time) | settled.

Definition status (t : metrics) (key : Ident) : lifecycle :=
  match sentTimes t !! key with
  | Some ts => pending ts
  | None => settled
  end.

(** The timestamps the table holds for one identity. *)
Definition held (t : metrics) (key : Ident) : list Time :=
  (filter (λ p, p.1 = key) (map_to_list (sentTimes t))).*2.

(** A tracker that [newMetrics name] built, and a registry that holds its
    four children. *)
Definition tracks (name : string) (t : metrics) (r : registry) : Prop :=
  addCounter t = [name; addLabel]
  ∧ updateCounter t = [name; updateLabel]
  ∧ deleteCounter t = [name; deleteLabel]
  ∧ latencyObserver t = [name]
  ∧ is_Some (counterValue [name; addLabel] r)
  ∧ is_Some (counterValue [name; updateLabel] r)
  ∧ is_Some (counterValue [name; deleteLabel] r)
  ∧ is_Some (observations [name] r).

(** The three counters of a tracker as a scrape reads them. *)
Definition readings (t : metrics) (r : registry)
  : option N * option N * option N :=
  (counterValue (addCounter t) r, counterValue (updateCounter t) r,
   counterValue (deleteCounter t) r).

(** ** Concurrent callers

    Goroutines that share one tracker, each making a sequence of calls.
    Execution is an interleaving of steps; a step is one access to the
    shared tracker or registry, or one operation on the mutex.  The schedule
    names the goroutine that moves and gives the reading of the clock at
    that moment. *)

Inductive call := Send (evt : Event) | Receive (evt : Ident).

(** Where a goroutine stands in its current call, with the local variables
    it has read so far. *)
Inductive point :=
| AtLock                        (* line 97 or 119: m.Lock() *)
| SendSwitch                    (* lines 100-107 *)
| SendLookup                    (* line 109 *)
| SendStore                     (* line 110 *)
| RecvLookup                    (* line 122 *)
| RecvObserve (startTime : Time) (* line 123 *)
| RecvDelete (clk : Time)       (* line 124 *)
| AtUnlock (clk : Time).        (* the deferred m.Unlock() *)

Record goroutine := { at_point : point; todo : list call }.

(** The shared state.  [history] is not program state: it lists the finished
    calls in the order of their [Unlock], each with its goroutine and the
    reading of the clock it took (or could have taken). *)
Record config := {
  goroutines : list goroutine;
  Mutex : bool;
  obj : metrics;
  reg : registry;
  history : list (nat * call * Time)
}.

Definition move (i : nat) (p : point) (c : config) : config :=
  {| goroutines := alter (λ g, {| at_point := p; todo := todo g |}) i (goroutines c);
     Mutex := Mutex c; obj := obj c; reg := reg c; history := history c |}.

Definition with_obj (t : metrics) (c : config) : config :=
  {| goroutines := goroutines c; Mutex := Mutex c; obj := t; reg := reg c;
     history := history c |}.

Definition with_reg (r : registry) (c : config) : config :=
  {| goroutines := goroutines c; Mutex := Mutex c; obj := obj c; reg := r;
     history := history c |}.

Definition with_Mutex (b : bool) (c : config) : config :=
  {| goroutines := goroutines c; Mutex := b; obj := obj c; reg := reg c;
     history := history c |}.

Definition entry (cl : call) : point :=
  match cl with Send _ => SendSwitch | Receive _ => RecvLookup end.

(** [m.Unlock()] and the return: the call is finished. *)
Definition unlock (i : nat) (cl : call) (clk : Time) (c : config) : config :=
  {| goroutines :=
       alter (λ g, {| at_point := AtLock; todo := tail (todo g) |}) i (goroutines c);
     Mutex := false; obj := obj c; reg := reg c;
     history := (history c ++ [(i, cl, clk)])%list |}.

(** One step of goroutine [i] when the clock reads [now].  A goroutine that
    has nothing left to do, or that waits for the mutex, does not move. *)
Definition step (i : nat) (now : Time) (c : config) : config :=
  match goroutines c !! i with
  | None => c
  | Some g =>
      match todo g with
      | [] => c
      | cl :: _ =>
          match at_point g, cl with
          | AtLock, _ =>
              if Mutex c then c else move i (entry cl) (with_Mutex true c)
          | SendSwitch, Send evt =>
              move i SendLookup
                (with_reg (count_kind (obj c) (evType evt) (reg c)) c)
          | SendLookup, Send evt =>
              match sentTimes (obj c) !! ident evt with
              | Some _ => move i (AtUnlock now) c
              | None => move i SendStore c
              end
          | SendStore, Send evt =>
              move i (AtUnlock now)
                (with_obj (set_sentTimes (insert (ident evt) now) (obj c)) c)
          | RecvLookup, Receive evt =>
              match sentTimes (obj c) !! evt with
              | Some startTime => move i (RecvObserve startTime) c
              | None => move i (AtUnlock now) c
              end
          | RecvObserve startTime, Receive evt =>
              move i (RecvDelete now)
                (with_reg (Observe (latencyObserver (obj c))
                             (Seconds (Since now startTime)) (reg c)) c)
          | RecvDelete clk, Receive evt =>
              move i (AtUnlock clk)
                (with_obj (set_sentTimes (delete evt) (obj c)) c)
          | AtUnlock clk, _ => unlock i cl clk c
          | _, _ => c
          end
      end
  end.

Definition run (sched : list (nat * Time)) (c : config) : config :=
  fold_left (λ c s, step s.1 s.2 c) sched c.

(** All goroutines before their first call, the mutex free. *)
Definition start (progs : list (list call)) (t : metrics) (r : registry)
  : config :=
  {| goroutines := (λ p, {| at_point := AtLock; todo := p |}) <$> progs;
     Mutex := false; obj := t; reg := r; history := [] |}.

(** The calls of a history made one after the other, each as a whole. *)
Definition exec (cl : call) (now : Time) (s : metrics * registry)
  : metrics * registry :=
  match cl with
  | Send evt => send_locked s.1 evt now s.2
  | Receive evt => receive_locked s.1 evt now s.2
  end.

Definition replay (h : list (nat * call * Time)) (s : metrics * registry)
  : metrics * registry :=
  fold_left (λ s e, exec e.1.2 e.2 s) h s.

(** The calls of goroutine [i] in a history, oldest first. *)
Definition calls_of (i : nat) (h : list (nat * call * Time)) : list call :=
  (λ e : nat * call * Time, e.1.2) <$> filter (λ e : nat * call * Time, e.1.1 = i) h.

(** What the goroutine that holds the mutex has done of its call [cl] when
    it stands at point [p]: [cur] is the shared state now, [s] the shared
    state when it took the mutex. *)
Definition midway (p : point) (cl : call) (s cur : metrics * registry) : Prop :=
  match p, cl with
  | SendSwitch, Send evt => cur = s
  | SendLookup, Send evt => cur = (s.1, count_kind s.1 (evType evt) s.2)
  | SendStore, Send evt =>
      cur = (s.1, count_kind s.1 (evType evt) s.2)
      ∧ sentTimes s.1 !! ident evt = None
  | RecvLookup, Receive evt => cur = s
  | RecvObserve startTime, Receive evt =>
      cur = s ∧ sentTimes s.1 !! evt = Some startTime
  | RecvDelete clk, Receive evt =>
      ∃ startTime,
        sentTimes s.1 !! evt = Some startTime
        ∧ cur = (s.1, Observe (latencyObserver s.1)
                        (Seconds (Since clk startTime)) s.2)
  | AtUnlock clk, _ => cur = exec cl clk s
  | _, _ => False
  end.

(** The invariant of every execution.  [who] is the goroutine between
    [Lock] and [Unlock], if there is one. *)
Definition serial (progs : list (list call)) (s0 : metrics * registry)
    (who : option nat) (c : config) : Prop :=
  Mutex c = bool_decide (is_Some who)
  ∧ (∀ j g, goroutines c !! j = Some g → who ≠ Some j → at_point g = AtLock)
  ∧ (∀ i p, progs !! i = Some p →
       ∃ g, goroutines c !! i = Some g
            ∧ (calls_of i (history c) ++ todo g)%list = p)
  ∧ match who with
    | None => (obj c, reg c) = replay (history c) s0
    | Some i =>
        ∃ g cl, goroutines c !! i = Some g
                ∧ head (todo g) = Some cl
                ∧ midway (at_point g) cl (replay (history c) s0) (obj c, reg c)
    end
  ∧ length (goroutines c) = length progs
  ∧ (∀ e, e ∈ history c → (e.1.1 < length progs)%nat).

(** *** Many items, each sent once and received once

    Goroutine [i] makes the two calls for item [i]. *)
Definition item_prog (e : Event) : list call := [Send e; Receive (ident e)].

(** Every goroutine has made all its calls. *)
Definition finished (c : config) : Prop :=
  ∀ i g, goroutines c !! i = Some g → todo g = [].

(** A history in which every call belongs to one of the items, and the calls
    of each item come in the order of its program. *)
Definition in_order (items : list Event) (h : list (nat * call * Time)) : Prop :=
  (∀ x, x ∈ h → (x.1.1 < length items)%nat)
  ∧ ∀ i e, items !! i = Some e → calls_of i h `prefix_of` item_prog e.

(** The items that have been sent and received. *)
Definition done_items (items : list Event) (h : list (nat * call * Time))
  : list nat :=
  filter (λ i, 2 ≤ length (calls_of i h))%nat (seq 0 (length items)).

(** The shared state [s] after a serial execution of such a history from
    [s0]: the table holds exactly the items sent and not yet received, next
    to what it held, and the histogram has one more observation for each
    item done. *)
Definition settling (items : list Event) (s0 : metrics * registry)
    (obs0 : list Q) (h : list (nat * call * Time)) (s : metrics * registry)
  : Prop :=
  latencyObserver s.1 = latencyObserver s0.1
  ∧ (∀ i e, items !! i = Some e → length (calls_of i h) = 1%nat →
       is_Some (sentTimes s.1 !! ident e))
  ∧ (∀ i e, items !! i = Some e → length (calls_of i h) ≠ 1%nat →
       sentTimes s.1 !! ident e = None)
  ∧ (∀ k, k ∉ ident <$> items → sentTimes s.1 !! k = sentTimes s0.1 !! k)
  ∧ ∃ obs, observations (latencyObserver s0.1) s.2 = Some (obs0 ++ obs)%list
           ∧ length obs = length (done_items items h).

(** The exported schema, for a given name of the histogram family: the
    names and labels of the two families, the values that the [type] label
    of a counter takes, and the buckets, the [k]-th of which is
    [1e-8 * 10^k]. *)
Definition exported_schema (histogram_name : string) : Prop :=
  fqName (cv_opts adds_desc) = "broker_queue_adds"
  ∧ cv_labels adds_desc = ["name"; "type"]
  ∧ (∀ name r, ∃ m r',
       newMetrics name r = Some (m, r')
       ∧ dom (adds r')
         = dom (adds r) ∪ {[ [name; "Add"]; [name; "Update"]; [name; "Delete"] ]})
  ∧ (∀ t evt key now r,
       dom (adds (send_locked t evt now r).2) = dom (adds r)
       ∧ dom (adds (receive_locked t key now r).2) = dom (adds r))
  ∧ fqName (hv_opts latency_desc) = histogram_name
  ∧ hv_labels latency_desc = ["name"]
  ∧ ∃ bs, hv_buckets latency_desc = Some bs
          ∧ length bs = 10%nat
          ∧ ∀ (k : nat) b, bs !! k = Some b →
              (b == (10 ^ Z.of_nat k) # 100000000)%Q.

(** [WithLabelValues] followed by [Add(0)], as [newMetrics] applies them to
    each of its counters. *)
Definition touch (c : Counter) (r : registry) : registry :=
  Counter_Add c 0
    match adds r !! c with
    | Some _ => r
    | None => {| adds := <[c := 0%N]> (adds r); latency := latency r |}
    end.

Definition ensure_observer (o : Observer) (r : registry) : registry :=
  match latency r !! o with
  | Some _ => r
  | None => {| adds := adds r; latency := <[o := []]> (latency r) |}
  end.

(** *** Counting the calls of a history *)

(** The identity that a call is about. *)
Definition call_ident (cl : call) : Ident :=
  match cl with Send evt => ident evt | Receive evt => evt end.

Definition is_send (cl : call) : bool :=
  match cl with Send _ => true | Receive _ => false end.

Definition is_receive (cl : call) : bool :=
  match cl with Send _ => false | Receive _ => true end.

(** A [send] of an event of kind [k]. *)
Definition sends_kind (k : Kind) (cl : call) : bool :=
  match cl with Send evt => bool_decide (evType evt = k) | Receive _ => false end.

Definition count_calls (p : call → bool) (h : list (nat * call * Time)) : nat :=
  length (filter (λ x, p x.1.2) h).

(** The most steps that a goroutine at a point has left in its call, the
    one that takes the mutex included. *)
Definition steps_left (p : point) : nat :=
  match p with
  | AtLock => 5
  | SendSwitch | RecvLookup => 4
  | SendLookup | RecvObserve _ => 3
  | SendStore | RecvDelete _ => 2
  | AtUnlock _ => 1
  end.

(** Goroutine [i] has just finished call [cl] of configuration [c], leaving
    [rest] to do, and the mutex is free. *)
Definition returned (i : nat) (cl : call) (rest : list call) (c c' : config)
  : Prop :=
  Mutex c' = false
  ∧ goroutines c' !! i = Some {| at_point := AtLock; todo := rest |}
  ∧ ∃ clk, history c' = (history c ++ [(i, cl, clk)])%list.

End Broker.

Arguments Event : clear implicits.
Arguments metrics Ident {_ _}.
Arguments lifecycle : clear implicits.
Arguments call : clear implicits.
Arguments goroutine : clear implicits.
Arguments config Ident {_ _} Kind.
Arguments exported_schema Ident {_ _} Kind {_ _} histogram_name.

(** ** Sample values *)

(** The kinds as strings, for the examples. *)
#[export] Instance string_kinds : EventKinds string :=
  {| Added := "Added"; Modified := "Modified"; Deleted := "Deleted" |}.

(** A tracker for queue [q] as [newMetrics] returns it on the registry of
    [init], and that registry afterwards. *)
Definition sample_tracker : metrics nat :=
  {| addCounter := ["q"; "Add"]; updateCounter := ["q"; "Update"];
     deleteCounter := ["q"; "Delete"]; latencyObserver := ["q"];
     sentTimes := ∅ |}.

Definition sample_registry : registry :=
  {| adds := {[ ["q"; "Add"] := 0%N; ["q"; "Update"] := 0%N;
                ["q"; "Delete"] := 0%N ]};
     latency := {[ ["q"] := [] ]} |}.

(** The same tracker with identity 7 in its table since the clock read 40. *)
Definition sample_pending : metrics nat :=
  set_sentTimes (insert 7%nat 40) sample_tracker.

Definition sample_event (k : string) : Event nat string :=
  {| ident := 7%nat; evType := k |}.

(** Two goroutines: the first sends the event of identity 7, the second
    receives it. *)
Definition sample_progs : list (list (call nat string)) :=
  [[Send (sample_event "Added")]; [Receive 7%nat]].

(** The receiver tries the mutex while the sender holds it, and runs when the
    sender has unlocked.  The clock reads 100 when the sender stores the
    timestamp and 2500000100 when the receiver observes. *)
Definition sample_schedule : list (nat * Time) :=
  [(0%nat, 10); (1%nat, 20); (0%nat, 30); (1%nat, 40); (0%nat, 50);
   (0%nat, 100); (1%nat, 110); (0%nat, 120); (1%nat, 130); (1%nat, 140);
   (1%nat, 2500000100); (1%nat, 2500000200); (1%nat, 2500000300)].

(** An event of another identity. *)
Definition sample_other : Event nat string :=
  {| ident := 8%nat; evType := "Deleted" |}.

(** Four calls made one after the other. *)
Definition sample_history : list (nat * call nat string * Time) :=
  [(0%nat, Send (sample_event "Added"), 100);
   (1%nat, Send sample_other, 150);
   (0%nat, Send (sample_event "Modified"), 200);
   (1%nat, Receive 7%nat, 2500000100)].

(** Goroutines 0 and 1 scheduled in turn, twenty-five times. *)
Definition sample_turns : list (nat * Time) :=
  concat (replicate 25 [(0%nat, 5); (1%nat, 9)]).

(** A tracker for queue [p], and a registry that holds the children of the
    trackers of both queues. *)
Definition sample_tracker_p : metrics nat :=
  {| addCounter := ["p"; "Add"]; updateCounter := ["p"; "Update"];
     deleteCounter := ["p"; "Delete"]; latencyObserver := ["p"];
     sentTimes := ∅ |}.

Definition sample_registry_pq : registry :=
  {| adds := {[ ["q"; "Add"] := 3%N; ["q"; "Update"] := 0%N;
                ["q"; "Delete"] := 1%N; ["p"; "Add"] := 2%N;
                ["p"; "Update"] := 5%N; ["p"; "Delete"] := 0%N ]};
     latency := {[ ["q"] := []; ["p"] := [Seconds 1500] ]} |}.

Section Properties.

Context {Ident : Type} `{Countable Ident}.
Context {Kind : Type} `{EqDecision Kind} `{EventKinds Kind}.

Implicit Types (t : metrics Ident) (evt : Event Ident Kind) (key : Ident).
Implicit Types (r : registry) (now : Time).

(** ** Reading the registry after an update *)

Lemma counterValue_Inc_eq c r :
  counterValue c (Counter_Inc c r) = N.succ <$> counterValue c r.
Proof.
  unfold counterValue, Counter_Inc, Counter_Add; simpl.
  rewrite lookup_alter_eq.
  destruct (adds r !! c) as [n|]; simpl; [f_equal; lia | done].
Qed.

Lemma counterValue_Inc_ne c c' r :
  c ≠ c' → counterValue c' (Counter_Inc c r) = counterValue c' r.
Proof.
  intros Hne. unfold counterValue, Counter_Inc, Counter_Add; simpl.
  by rewrite lookup_alter_ne.
Qed.

Lemma latency_count_kind t k r : latency (count_kind t k r) = latency r.
Proof. unfold count_kind. repeat case_decide; reflexivity. Qed.

Lemma observations_Observe o v r obs :
  observations o r = Some obs →
  latency (Observe o v r) = <[o := (obs ++ [v])%list]> (latency r).
Proof.
  unfold observations, Observe; simpl. intros Ho.
  apply map_eq. intros o'. destruct (decide (o = o')) as [<-|Hne].
  - by rewrite lookup_alter_eq, Ho, lookup_insert_eq.
  - by rewrite lookup_alter_ne, lookup_insert_ne.
Qed.

Lemma Seconds_fractional d : (Seconds d == d # 1000000000)%Q.
Proof.
  unfold Seconds, Qeq, Second; simpl.
  pose proof (Z.quot_rem' d 1000000000) as E.
  lia.
Qed.

(** ** The table after [send] and [receive] *)

Lemma sentTimes_send t evt now r :
  sentTimes (send_locked t evt now r).1 !! ident evt
  = Some (default now (sentTimes t !! ident evt)).
Proof.
  unfold send_locked, stamp; simpl.
  destruct (sentTimes t !! ident evt) as [ts|] eqn:E; simpl.
  - done.
  - apply lookup_insert_eq.
Qed.

Lemma observer_send t evt now r :
  latencyObserver (send_locked t evt now r).1 = latencyObserver t.
Proof. unfold send_locked, stamp; simpl. by destruct (sentTimes t !! _). Qed.

Lemma receive_pending t key now r ts obs :
  sentTimes t !! key = Some ts →
  observations (latencyObserver t) r = Some obs →
  receive_locked t key now r
  = (set_sentTimes (delete key) t,
     {| adds := adds r;
        latency := <[latencyObserver t := (obs ++ [Seconds (Since now ts)])%list]>
                     (latency r) |}).
Proof.
  intros Hk Ho. unfold receive_locked. rewrite Hk.
  f_equal. rewrite <- (observations_Observe _ _ _ _ Ho). reflexivity.
Qed.

Lemma receive_settled t key now r :
  sentTimes t !! key = None → receive_locked t key now r = (t, r).
Proof. intros Hk. unfold receive_locked. by rewrite Hk. Qed.

(** ** One caller *)

(** C1.  One [send] followed by one [receive] for the same identity: the
    histogram of the tracker gains exactly one observation, no other
    histogram changes, the observed value is the time in seconds, with its
    fraction, from the timestamp that the table holds after the [send] to
    the reading of the clock in [receive], and the entry is gone.  The
    timestamp is the reading of the clock in [send] when the identity was
    not in the table before. *)
Theorem send_receive_observes_once
    (t : metrics Ident) (r : registry) (evt : Event Ident Kind) (now_s now_r : Time)
    (obs : list Q) :
  observations (latencyObserver t) r = Some obs →
  ∃ t1 r1 t2 r2 ts,
    send (Some t) evt now_s r = (Some t1, r1)
    ∧ sentTimes t1 !! ident evt = Some ts
    ∧ (sentTimes t !! ident evt = None → ts = now_s)
    ∧ receive (Some t1) (ident evt) now_r r1 = (Some t2, r2)
    ∧ latency r2
      = <[latencyObserver t := (obs ++ [Seconds (Since now_r ts)])%list]> (latency r)
    ∧ (Seconds (Since now_r ts) == (now_r - ts) # 1000000000)%Q
    ∧ sentTimes t2 !! ident evt = None.
Proof.
  intros Ho.
  pose proof (sentTimes_send t evt now_s r) as Hs.
  pose proof (observer_send t evt now_s r) as Hl.
  set (ts := default now_s (sentTimes t !! ident evt)) in *.
  destruct (send_locked t evt now_s r) as [t1 r1] eqn:E1; simpl in Hs, Hl.
  assert (latency r1 = latency r) as Hr1.
  { unfold send_locked in E1. injection E1 as _ <-. apply latency_count_kind. }
  assert (observations (latencyObserver t1) r1 = Some obs) as Ho1.
  { unfold observations. by rewrite Hl, Hr1. }
  exists t1, r1, (set_sentTimes (delete (ident evt)) t1),
    {| adds := adds r1;
       latency := <[latencyObserver t1 := (obs ++ [Seconds (Since now_r ts)])%list]>
                    (latency r1) |}, ts.
  split_and!.
  - unfold send. by rewrite E1.
  - exact Hs.
  - intros Hn. subst ts. by rewrite Hn.
  - unfold send, receive. by rewrite (receive_pending _ _ now_r _ _ _ Hs Ho1).
  - simpl. by rewrite Hl, Hr1.
  - apply Seconds_fractional.
  - simpl. apply lookup_delete_eq.
Qed.

(** C2.  A [send] for an identity that is in the table leaves the tracker
    as it is, timestamp included, so that the observation a later [receive]
    makes is measured from the timestamp recorded first, whatever the clock
    read at the second [send]. *)
Theorem send_again_keeps_timestamp
    (t : metrics Ident) (r : registry) (evt : Event Ident Kind) (now now_r ts : Time)
    (obs : list Q) :
  sentTimes t !! ident evt = Some ts →
  observations (latencyObserver t) r = Some obs →
  ∃ r1 t2 r2,
    send (Some t) evt now r = (Some t, r1)
    ∧ receive (Some t) (ident evt) now_r r1 = (Some t2, r2)
    ∧ latency r2
      = <[latencyObserver t := (obs ++ [Seconds (Since now_r ts)])%list]> (latency r).
Proof.
  intros Hk Ho.
  assert (observations (latencyObserver t) (count_kind t (evType evt) r) = Some obs)
    as Ho1 by (unfold observations; by rewrite latency_count_kind).
  eexists _, _, _. split_and!.
  - unfold send, send_locked, stamp. by rewrite Hk.
  - unfold receive. by rewrite (receive_pending _ _ now_r _ _ _ Hk Ho1).
  - simpl. by rewrite latency_count_kind.
Qed.

Lemma held_lookup (t : metrics Ident) (key : Ident) :
  held t key = match sentTimes t !! key with Some ts => [ts] | None => [] end.
Proof.
  unfold held.
  induction (sentTimes t) as [|k v m Hk Hfold IH] using map_first_key_ind.
  - by rewrite map_to_list_empty, lookup_empty.
  - rewrite (map_to_list_insert_first_key m k v) by done.
    rewrite filter_cons; simpl. destruct (decide (k = key)) as [->|Hne].
    + rewrite lookup_insert_eq. simpl. f_equal.
      rewrite Hk in IH. exact IH.
    + rewrite lookup_insert_ne by done. exact IH.
Qed.

(** C3.  The table holds at most one timestamp for an identity.  An
    identity is pending or settled; [receive] settles a pending identity
    and makes one observation, and a second [receive] for it changes
    nothing: of two calls in a row, exactly the first one observes. *)
Theorem receive_twice_observes_once
    (t : metrics Ident) (r : registry) (key : Ident) (now1 now2 ts : Time)
    (obs : list Q) :
  status t key = pending ts →
  observations (latencyObserver t) r = Some obs →
  (∀ t' key', length (held t' key') ≤ 1)%nat
  ∧ ∃ t1 r1,
      receive (Some t) key now1 r = (Some t1, r1)
      ∧ status t1 key = settled
      ∧ latency r1
        = <[latencyObserver t := (obs ++ [Seconds (Since now1 ts)])%list]> (latency r)
      ∧ receive (Some t1) key now2 r1 = (Some t1, r1).
Proof.
  unfold status. intros Hst Ho.
  destruct (sentTimes t !! key) as [ts'|] eqn:Hk; [|discriminate].
  injection Hst as ->.
  split.
  { intros t' key'. rewrite held_lookup.
    destruct (sentTimes t' !! key'); simpl; lia. }
  eexists _, _. split_and!.
  - unfold receive. by rewrite (receive_pending _ _ now1 _ _ _ Hk Ho).
  - unfold status; simpl. by rewrite lookup_delete_eq.
  - reflexivity.
  - unfold receive. rewrite receive_settled; [done|]. simpl. apply lookup_delete_eq.
Qed.

(** C4.  [receive] for an identity that is not in the table returns with
    the tracker and the registry as they were: nothing is observed, no
    counter moves, the table is the same.  After one [receive] the identity
    is such an identity. *)
Theorem receive_absent_is_noop
    (t : metrics Ident) (r : registry) (key : Ident) (now : Time) :
  sentTimes t !! key = None →
  receive (Some t) key now r = (Some t, r).
Proof.
  intros Hk. unfold receive. by rewrite receive_settled.
Qed.

(** C5.  On a nil tracker [send] and [receive] return at once: the result is
    the nil tracker and the registry it was given. *)
Theorem nil_tracker_is_noop
    (evt : Event Ident Kind) (key : Ident) (now : Time) (r : registry) :
  send None evt now r = (None, r) ∧ receive None key now r = (None, r).
Proof. split; reflexivity. Qed.

(** ** Counting and construction *)

Lemma count_kind_Added t k r :
  k = Added → count_kind t k r = Counter_Inc (addCounter t) r.
Proof. intros ->. unfold count_kind. by rewrite decide_True. Qed.

Lemma count_kind_Modified t k r :
  Added ≠ Modified → k = Modified →
  count_kind t k r = Counter_Inc (updateCounter t) r.
Proof.
  intros Hd ->. unfold count_kind.
  rewrite decide_False by congruence. by rewrite decide_True.
Qed.

Lemma count_kind_Deleted t k r :
  Added ≠ Deleted → Modified ≠ Deleted → k = Deleted →
  count_kind t k r = Counter_Inc (deleteCounter t) r.
Proof.
  intros Hd1 Hd2 ->. unfold count_kind.
  rewrite !decide_False by congruence. by rewrite decide_True.
Qed.

Lemma count_kind_other t k r :
  k ≠ Added → k ≠ Modified → k ≠ Deleted → count_kind t k r = r.
Proof. intros. unfold count_kind. by rewrite !decide_False. Qed.

(** C6.  [send] on a tracker built by [newMetrics], with the three kinds
    that the [switch] names pairwise different: the call returns; when the
    kind of the event is one of the three, the counter of that kind reads
    one more and the other two read what they read before; when it is none
    of them, the registry is what it was.  A counter that is not one of
    the tracker's is never touched. *)
Theorem send_counts_its_kind
    (name : string) (t : metrics Ident) (r : registry) (evt : Event Ident Kind) (now : Time)
    (a u d : N) :
  Added ≠ Modified → Added ≠ Deleted → Modified ≠ Deleted →
  tracks name t r →
  readings t r = (Some a, Some u, Some d) →
  ∃ t1 r1,
    send (Some t) evt now r = (Some t1, r1)
    ∧ (evType evt = Added →
         readings t r1 = (Some (a + 1)%N, Some u, Some d))
    ∧ (evType evt = Modified →
         readings t r1 = (Some a, Some (u + 1)%N, Some d))
    ∧ (evType evt = Deleted →
         readings t r1 = (Some a, Some u, Some (d + 1)%N))
    ∧ (evType evt ≠ Added → evType evt ≠ Modified → evType evt ≠ Deleted →
         r1 = r)
    ∧ (∀ c, c ≠ addCounter t → c ≠ updateCounter t → c ≠ deleteCounter t →
         counterValue c r1 = counterValue c r).
Proof.
  intros Ham Had Hmd (Ea & Eu & Ed & _) Hrd.
  unfold readings in *. injection Hrd as Ha Hu Hd.
  assert (addCounter t ≠ updateCounter t) as N1 by (rewrite Ea, Eu; discriminate).
  assert (addCounter t ≠ deleteCounter t) as N2 by (rewrite Ea, Ed; discriminate).
  assert (updateCounter t ≠ deleteCounter t) as N3 by (rewrite Eu, Ed; discriminate).
  exists (stamp t (ident evt) now), (count_kind t (evType evt) r).
  split; [reflexivity|]. split_and!.
  - intros E. rewrite (count_kind_Added _ _ _ E), counterValue_Inc_eq,
      !counterValue_Inc_ne, Ha, Hu, Hd by done.
    simpl. repeat f_equal. lia.
  - intros E. rewrite (count_kind_Modified _ _ _ Ham E), counterValue_Inc_eq,
      !counterValue_Inc_ne, Ha, Hu, Hd by done.
    simpl. repeat f_equal. lia.
  - intros E. rewrite (count_kind_Deleted _ _ _ Had Hmd E), counterValue_Inc_eq,
      !counterValue_Inc_ne, Ha, Hu, Hd by done.
    simpl. repeat f_equal. lia.
  - intros. by apply count_kind_other.
  - intros c Ca Cu Cd. unfold count_kind.
    repeat case_decide; try reflexivity; by apply counterValue_Inc_ne.
Qed.

Lemma adds_WithLabelValues_Add0 (name type : string) r :
  adds_WithLabelValues [name; type] r ≫= (λ '(c, r), Some (c, Counter_Add c 0 r))
  = Some ([name; type], touch [name; type] r).
Proof.
  unfold adds_WithLabelValues, touch. simpl length.
  rewrite decide_True by reflexivity.
  by destruct (adds r !! [name; type]).
Qed.

Lemma latency_WithLabelValues_name (name : string) r :
  latency_WithLabelValues [name] r = Some ([name], ensure_observer [name] r).
Proof.
  unfold latency_WithLabelValues, ensure_observer. simpl length.
  rewrite decide_True by reflexivity.
  by destruct (latency r !! [name]).
Qed.

Lemma counterValue_touch c c' r :
  counterValue c' (touch c r)
  = if decide (c = c') then Some (default 0%N (counterValue c r))
    else counterValue c' r.
Proof.
  unfold touch, counterValue, Counter_Add.
  destruct (adds r !! c) as [n|] eqn:E; simpl; case_decide; subst.
  - by rewrite lookup_alter_eq, E.
  - by rewrite lookup_alter_ne.
  - by rewrite lookup_alter_eq, lookup_insert_eq.
  - by rewrite lookup_alter_ne, lookup_insert_ne.
Qed.

Lemma latency_touch c r : latency (touch c r) = latency r.
Proof. unfold touch. by destruct (adds r !! c). Qed.

Lemma adds_ensure_observer o r : adds (ensure_observer o r) = adds r.
Proof. unfold ensure_observer. by destruct (latency r !! o). Qed.

Lemma observations_ensure_observer o o' r :
  observations o' (ensure_observer o r)
  = if decide (o = o') then Some (default [] (observations o r))
    else observations o' r.
Proof.
  unfold ensure_observer, observations.
  destruct (latency r !! o) as [l|] eqn:E; simpl; case_decide; subst.
  - by rewrite E.
  - done.
  - by rewrite lookup_insert_eq.
  - by rewrite lookup_insert_ne.
Qed.

(** [newMetrics] never panics, and what it returns. *)
Lemma newMetrics_unfold name r :
  newMetrics (Ident:=Ident) name r
  = Some (Some {| addCounter := [name; addLabel];
                  updateCounter := [name; updateLabel];
                  deleteCounter := [name; deleteLabel];
                  latencyObserver := [name];
                  sentTimes := ∅ |},
          ensure_observer [name]
            (touch [name; deleteLabel]
               (touch [name; updateLabel] (touch [name; addLabel] r)))).
Proof.
  unfold newMetrics, adds_WithLabelValues, latency_WithLabelValues,
    touch, ensure_observer.
  simpl length. rewrite !decide_True by reflexivity.
  destruct (adds r !! [name; addLabel]); simpl;
    (match goal with
     | |- context [match ?m !! [name; updateLabel] with _ => _ end] =>
         destruct (m !! [name; updateLabel])
     end); simpl;
    (match goal with
     | |- context [match ?m !! [name; deleteLabel] with _ => _ end] =>
         destruct (m !! [name; deleteLabel])
     end); simpl;
    (match goal with
     | |- context [match ?m !! [name] with _ => _ end] =>
         destruct (m !! [name])
     end); reflexivity.
Qed.

Lemma newMetrics_counter name r type :
  type ∈ [addLabel; updateLabel; deleteLabel] →
  counterValue [name; type]
    (ensure_observer [name]
       (touch [name; deleteLabel]
          (touch [name; updateLabel] (touch [name; addLabel] r))))
  = Some (default 0%N (counterValue [name; type] r)).
Proof.
  intros Hty. unfold counterValue at 1. rewrite adds_ensure_observer.
  fold (counterValue [name; type] (touch [name; deleteLabel]
          (touch [name; updateLabel] (touch [name; addLabel] r)))).
  rewrite !elem_of_cons, elem_of_nil in Hty.
  destruct Hty as [-> | [-> | [-> | []]]];
    rewrite !counterValue_touch; repeat case_decide;
    try discriminate; try congruence; reflexivity.
Qed.

(** C7.  [newMetrics name] does not panic and returns a tracker that is not
    nil, whose table is empty and whose four children are in the registry.
    When nothing has been counted for queue [name] yet (each of its three
    counters is missing or reads zero), each of the three counters is
    present after the construction and reads zero. *)
Theorem newMetrics_zeroes_counters (name : string) (r : registry) :
  (∀ type, type ∈ [addLabel; updateLabel; deleteLabel] →
     counterValue [name; type] r = None ∨ counterValue [name; type] r = Some 0%N) →
  ∃ t r',
    newMetrics name r = Some (Some t, r')
    ∧ sentTimes t = ∅
    ∧ tracks name t r'
    ∧ readings t r' = (Some 0%N, Some 0%N, Some 0%N).
Proof.
  intros Hfresh.
  assert (∀ type, type ∈ [addLabel; updateLabel; deleteLabel] →
            default 0%N (counterValue [name; type] r) = 0%N) as Hz.
  { intros ty Hty. by destruct (Hfresh ty Hty) as [-> | ->]. }
  eexists _, _. split; [apply newMetrics_unfold|].
  split; [reflexivity|].
  assert (∀ type, type ∈ [addLabel; updateLabel; deleteLabel] →
            counterValue [name; type]
              (ensure_observer [name]
                 (touch [name; deleteLabel]
                    (touch [name; updateLabel] (touch [name; addLabel] r))))
            = Some 0%N) as Hc.
  { intros ty Hty. by rewrite newMetrics_counter, Hz. }
  split.
  - split_and!; simpl; try reflexivity;
      try (eexists; apply Hc; by repeat constructor).
    rewrite observations_ensure_observer, decide_True by done. eauto.
  - unfold readings; simpl. rewrite !Hc by (by repeat constructor). reflexivity.
Qed.

(** C10.  An event whose kind is none of the three that the [switch] names,
    and whose identity is not in the table: [send] leaves the registry as
    it is, so no counter moves, and records the reading of the clock; the
    [receive] that follows makes exactly one observation, measured from
    that reading, and still no counter has moved. *)
Theorem send_unknown_kind_is_timed
    (t : metrics Ident) (r : registry) (evt : Event Ident Kind) (now_s now_r : Time)
    (obs : list Q) :
  evType evt ≠ Added → evType evt ≠ Modified → evType evt ≠ Deleted →
  sentTimes t !! ident evt = None →
  observations (latencyObserver t) r = Some obs →
  ∃ t1 t2 r2,
    send (Some t) evt now_s r = (Some t1, r)
    ∧ sentTimes t1 !! ident evt = Some now_s
    ∧ receive (Some t1) (ident evt) now_r r = (Some t2, r2)
    ∧ latency r2
      = <[latencyObserver t := (obs ++ [Seconds (Since now_r now_s)])%list]> (latency r)
    ∧ adds r2 = adds r
    ∧ sentTimes t2 !! ident evt = None.
Proof.
  intros Ka Km Kd Hk Ho.
  pose proof (sentTimes_send t evt now_s r) as Hs.
  pose proof (observer_send t evt now_s r) as Hl.
  rewrite Hk in Hs. simpl in Hs.
  unfold send_locked in Hs, Hl. simpl in Hs, Hl.
  exists (stamp t (ident evt) now_s). eexists _, _. split_and!.
  - unfold send, send_locked. by rewrite count_kind_other.
  - exact Hs.
  - unfold receive. rewrite <- Hl in Ho.
    by rewrite (receive_pending _ _ now_r _ _ _ Hs Ho).
  - simpl. by rewrite Hl.
  - reflexivity.
  - simpl. apply lookup_delete_eq.
Qed.

(** ** The exported schema *)

Lemma dom_adds_touch c r : dom (adds (touch c r)) = {[c]} ∪ dom (adds r).
Proof.
  unfold touch, Counter_Add. destruct (adds r !! c) as [n|] eqn:E; simpl.
  - rewrite dom_alter_L. apply elem_of_dom_2 in E. set_solver.
  - rewrite dom_alter_L. apply dom_insert_L.
Qed.

Lemma dom_adds_count_kind t k r : dom (adds (count_kind t k r)) = dom (adds r).
Proof.
  unfold count_kind, Counter_Inc, Counter_Add.
  repeat case_decide; simpl; by rewrite ?dom_alter_L.
Qed.

Lemma latency_buckets :
  ∃ bs, hv_buckets latency_desc = Some bs
        ∧ length bs = 10%nat
        ∧ ∀ (k : nat) b, bs !! k = Some b →
            (b == (10 ^ Z.of_nat k) # 100000000)%Q.
Proof.
  eexists. split; [reflexivity|]. split; [reflexivity|].
  intros k b Hk.
  do 10 (destruct k as [|k]; [injection Hk as <-; reflexivity|]).
  discriminate.
Qed.

(** C8, as the code has it.  The counter family is [broker_queue_adds] with
    labels [name] and [type], the children that a tracker creates carry
    the types [Add], [Update] and [Delete], and neither [send] nor
    [receive] creates a child; the histogram family is
    [broker_queue_duration_seconds], the subsystem [broker] joined to the
    name [queue_duration_seconds], with label [name] and ten buckets that
    start at [1e-8] and grow by the factor ten. *)
Theorem exported_schema_holds :
  exported_schema Ident Kind "broker_queue_duration_seconds".
Proof.
  unfold exported_schema. split_and!.
  - reflexivity.
  - reflexivity.
  - intros name r. eexists _, _. split; [apply newMetrics_unfold|].
    rewrite adds_ensure_observer, !dom_adds_touch. set_solver.
  - intros t evt key now r. split.
    + apply dom_adds_count_kind.
    + unfold receive_locked. by destruct (sentTimes t !! key).
  - reflexivity.
  - reflexivity.
  - apply latency_buckets.
Qed.

(** ** Concurrent callers: every execution is a serial one *)

Section Serial.

Variable progs : list (list (call Ident Kind)).
Variable s0 : metrics Ident * registry.

Implicit Types (c : config Ident Kind) (g : goroutine Ident Kind).
Implicit Types (cl : call Ident Kind) (h : list (nat * call Ident Kind * Time)).
Implicit Types (who : option nat) (clk : Time).

Lemma serial_start : serial progs s0 None (start progs s0.1 s0.2).
Proof.
  unfold serial, start; simpl. split_and!.
  - reflexivity.
  - intros j g Hg _. rewrite list_lookup_fmap in Hg.
    destruct (progs !! j); simplify_eq/=. reflexivity.
  - intros i p Hp. eexists. rewrite list_lookup_fmap, Hp. simpl.
    split; reflexivity.
  - by destruct s0.
  - apply length_fmap.
  - intros e He. by apply elem_of_nil in He.
Qed.

Lemma replay_snoc h i cl clk (s : metrics Ident * registry) :
  replay (h ++ [(i, cl, clk)]) s = exec cl clk (replay h s).
Proof. unfold replay. by rewrite fold_left_app. Qed.

Lemma calls_of_snoc_eq h i cl clk :
  calls_of i (h ++ [(i, cl, clk)]) = (calls_of i h ++ [cl])%list.
Proof.
  unfold calls_of. rewrite filter_app, fmap_app. f_equal.
  rewrite filter_cons, decide_True by reflexivity. reflexivity.
Qed.

Lemma calls_of_snoc_ne h i j cl clk :
  i ≠ j → calls_of j (h ++ [(i, cl, clk)]) = calls_of j h.
Proof.
  intros Hne. unfold calls_of. rewrite filter_app, fmap_app.
  rewrite filter_cons, decide_False by (simpl; congruence).
  simpl. apply app_nil_r.
Qed.

(** The goroutine that is not at [Lock] is the one that holds the mutex. *)
Lemma serial_holder who c i g :
  serial progs s0 who c →
  goroutines c !! i = Some g → at_point g ≠ AtLock →
  who = Some i.
Proof.
  intros (_ & Hidle & _) Hg Hp.
  destruct (decide (who = Some i)) as [|Hne]; [done|].
  by specialize (Hidle i g Hg Hne).
Qed.

(** A step inside the critical section, or the step that enters it. *)
Lemma serial_progress who c c' i g cl p' :
  serial progs s0 who c →
  (who = Some i ∨ who = None) →
  goroutines c !! i = Some g → head (todo g) = Some cl →
  goroutines c'
  = alter (λ g, {| at_point := p'; todo := todo g |}) i (goroutines c) →
  Mutex c' = true → history c' = history c →
  midway p' cl (replay (history c) s0) (obj c', reg c') →
  serial progs s0 (Some i) c'.
Proof.
  intros (HM & Hidle & Hpo & Hst & Hlen & Htid) Hwho Hg Hcl Egs EM Eh Hmid.
  unfold serial. rewrite Egs, EM, Eh. split_and!.
  - reflexivity.
  - intros j g' Hg' Hj.
    assert (i ≠ j) as Hne by congruence.
    rewrite list_lookup_alter_ne in Hg' by done.
    apply (Hidle j g' Hg'). destruct Hwho as [-> | ->]; congruence.
  - intros j p Hp. destruct (Hpo j p Hp) as (g' & Hg' & Hcalls).
    destruct (decide (i = j)) as [<- | Hne].
    + rewrite list_lookup_alter_eq, Hg'. eexists. split; [reflexivity|].
      exact Hcalls.
    + rewrite list_lookup_alter_ne by done. eauto.
  - rewrite list_lookup_alter_eq, Hg. simpl. eauto.
  - by rewrite length_alter.
  - exact Htid.
Qed.

(** The step that leaves the critical section. *)
Lemma serial_unlock c i g cl clk :
  serial progs s0 (Some i) c →
  goroutines c !! i = Some g → head (todo g) = Some cl →
  at_point g = AtUnlock clk →
  serial progs s0 None (unlock i cl clk c).
Proof.
  intros (HM & Hidle & Hpo & (g' & cl' & Hg' & Hcl' & Hmid) & Hlen & Htid)
    Hg Hcl Hp.
  rewrite Hg in Hg'. injection Hg' as <-.
  rewrite Hcl in Hcl'. injection Hcl' as <-.
  rewrite Hp in Hmid. simpl in Hmid.
  unfold serial, unlock; simpl. split_and!.
  - reflexivity.
  - intros j g1 Hg1 _. destruct (decide (i = j)) as [<- | Hne].
    + rewrite list_lookup_alter_eq, Hg in Hg1. by simplify_eq/=.
    + rewrite list_lookup_alter_ne in Hg1 by done.
      apply (Hidle j g1 Hg1). congruence.
  - intros j p Hpj. destruct (Hpo j p Hpj) as (g1 & Hg1 & Hcalls).
    destruct (decide (i = j)) as [<- | Hne].
    + rewrite list_lookup_alter_eq, Hg1. eexists. split; [reflexivity|].
      rewrite Hg in Hg1. injection Hg1 as <-. subst p. simpl.
      rewrite calls_of_snoc_eq, <- app_assoc. f_equal.
      destruct (todo g) as [|cl0 rest]; simplify_eq/=. reflexivity.
    + rewrite list_lookup_alter_ne by done. exists g1. split; [done|].
      by rewrite calls_of_snoc_ne.
  - rewrite replay_snoc. destruct cl; exact Hmid.
  - by rewrite length_alter.
  - intros e He. apply elem_of_app in He as [He | He]; [by apply Htid|].
    apply list_elem_of_singleton in He as ->. simpl.
    rewrite <- Hlen. by apply lookup_lt_Some in Hg.
Qed.

Lemma serial_step who c i now :
  serial progs s0 who c → ∃ who', serial progs s0 who' (step i now c).
Proof.
  intros Hinv. unfold step.
  destruct (goroutines c !! i) as [g|] eqn:Hg; [|eauto].
  destruct (todo g) as [|cl rest] eqn:Htodo; [eauto|].
  assert (head (todo g) = Some cl) as Hcl by (by rewrite Htodo).
  destruct (at_point g) eqn:Hp.
  1: { (* Lock *)
    destruct (Mutex c) eqn:HM; [eauto|].
    assert (who = None) as ->.
    { destruct Hinv as (HM' & _). rewrite HM in HM'.
      destruct who; [|done]. rewrite bool_decide_true in HM' by eauto. done. }
    exists (Some i).
    eapply (serial_progress None c _ i g cl (entry cl) Hinv); eauto.
    destruct Hinv as (_ & _ & _ & Hst & _). simpl in *.
    destruct cl; simpl; done. }
  all: assert (who = Some i) as ->
         by (eapply serial_holder; eauto; rewrite Hp; discriminate).
  all: pose proof Hinv as (_ & _ & _ & (g' & cl' & Hg' & Hcl' & Hmid) & _).
  all: rewrite Hg in Hg'; injection Hg' as <-.
  all: rewrite Hcl in Hcl'; injection Hcl' as <-.
  all: rewrite Hp in Hmid.
  all: assert (Mutex c = true) as HM
         by (destruct Hinv as (-> & _); apply bool_decide_eq_true; eauto).
  all: destruct (replay (history c) s0) as [ts rs] eqn:Hs.
  all: destruct cl as [evt | evt]; simpl in Hmid; try (by eauto).
  - (* the switch of send *)
    injection Hmid as Ho Hr. exists (Some i).
    eapply (serial_progress (Some i) c _ i g _ SendLookup Hinv); eauto.
    rewrite Hs. simpl. by rewrite Ho, Hr.
  - (* the lookup of send *)
    injection Hmid as Ho Hr. exists (Some i).
    destruct (sentTimes (obj c) !! ident evt) as [ts'|] eqn:E.
    + eapply (serial_progress (Some i) c _ i g _ (AtUnlock now) Hinv); eauto.
      rewrite Hs. simpl. unfold send_locked, stamp. simpl.
      rewrite Ho in E. by rewrite E, Ho, Hr.
    + eapply (serial_progress (Some i) c _ i g _ SendStore Hinv); eauto.
      rewrite Hs. simpl. rewrite Ho in E. by rewrite Ho, Hr.
  - (* the store of send *)
    destruct Hmid as [Hmid E]. injection Hmid as Ho Hr. exists (Some i).
    eapply (serial_progress (Some i) c _ i g _ (AtUnlock now) Hinv); eauto.
    rewrite Hs. simpl. unfold send_locked, stamp. simpl.
    by rewrite E, Ho, Hr.
  - (* the lookup of receive *)
    injection Hmid as Ho Hr. exists (Some i).
    destruct (sentTimes (obj c) !! evt) as [startTime|] eqn:E.
    + eapply (serial_progress (Some i) c _ i g _ (RecvObserve startTime) Hinv);
        eauto.
      rewrite Hs. simpl. rewrite Ho in E. by rewrite Ho, Hr.
    + eapply (serial_progress (Some i) c _ i g _ (AtUnlock now) Hinv); eauto.
      rewrite Hs. simpl. unfold receive_locked. simpl.
      rewrite Ho in E. by rewrite E, Ho, Hr.
  - (* Observe *)
    destruct Hmid as [Hmid E]. injection Hmid as Ho Hr. exists (Some i).
    eapply (serial_progress (Some i) c _ i g _ (RecvDelete now) Hinv); eauto.
    rewrite Hs. simpl. exists startTime. by rewrite Ho, Hr.
  - (* delete *)
    destruct Hmid as (startTime & E & Hmid). injection Hmid as Ho Hr.
    exists (Some i).
    eapply (serial_progress (Some i) c _ i g _ (AtUnlock clk) Hinv); eauto.
    rewrite Hs. simpl. unfold receive_locked. simpl.
    by rewrite E, Ho, Hr.
  - (* Unlock, at the end of send *)
    exists None. eapply serial_unlock; eauto.
  - (* Unlock, at the end of receive *)
    exists None. eapply serial_unlock; eauto.
Qed.

Lemma serial_run sched who c :
  serial progs s0 who c → ∃ who', serial progs s0 who' (run sched c).
Proof.
  revert who c. induction sched as [|[i now] sched IH]; intros who c Hinv.
  - eauto.
  - simpl. destruct (serial_step who c i now Hinv) as [who' Hinv'].
    exact (IH who' _ Hinv').
Qed.

End Serial.

(** C9.  Goroutines that share a tracker, each making any sequence of [send]
    and [receive] calls, under any schedule and any readings of the clock.
    At every moment of the execution:
    - at most one goroutine is between [Lock] and [Unlock];
    - when the mutex is free, the tracker and the registry are what the
      finished calls give when made one after the other, each as a whole, in
      the order of the history, so the table is the table of a serial
      execution;
    - when the mutex is held, they differ from that by the part of its call
      that the holder has made so far, and by nothing else;
    - the history lists the calls of each goroutine in the order in which it
      made them, so it is a total order of all finished calls that extends
      the order of every caller. *)
Theorem calls_are_serialized
    (progs : list (list (call Ident Kind))) (t0 : metrics Ident)
    (r0 : registry) (sched : list (nat * Time)) :
  let c := run sched (start progs t0 r0) in
  (∀ i j gi gj,
     goroutines c !! i = Some gi → goroutines c !! j = Some gj →
     at_point gi ≠ AtLock → at_point gj ≠ AtLock → i = j)
  ∧ (Mutex c = false →
       (obj c, reg c) = replay (history c) (t0, r0)
       ∧ ∀ i g, goroutines c !! i = Some g → at_point g = AtLock)
  ∧ (Mutex c = true →
       ∃ i g cl,
         goroutines c !! i = Some g
         ∧ head (todo g) = Some cl
         ∧ midway (at_point g) cl (replay (history c) (t0, r0)) (obj c, reg c))
  ∧ (∀ i p, progs !! i = Some p →
       ∃ g, goroutines c !! i = Some g
            ∧ (calls_of i (history c) ++ todo g)%list = p).
Proof.
  cbv zeta. set (c := run sched (start progs t0 r0)).
  destruct (serial_run progs (t0, r0) sched None _ (serial_start progs (t0, r0)))
    as [who Hinv].
  change (serial progs (t0, r0) who c) in Hinv.
  pose proof Hinv as (HM & Hidle & Hpo & Hst & _).
  split_and!.
  - intros i j gi gj Hi Hj Pi Pj.
    pose proof (serial_holder _ _ _ _ _ _ Hinv Hi Pi) as Ei.
    pose proof (serial_holder _ _ _ _ _ _ Hinv Hj Pj) as Ej.
    congruence.
  - intros HMf. rewrite HMf in HM. destruct who as [i|].
    + rewrite bool_decide_true in HM by eauto. discriminate.
    + split; [exact Hst|]. intros i g Hg. by apply (Hidle i g Hg).
  - intros HMt. rewrite HMt in HM. destruct who as [i|].
    + destruct Hst as (g & cl & Hst). eauto.
    + rewrite bool_decide_false in HM by (by intros [? ?]). discriminate.
  - exact Hpo.
Qed.

(** ** Many items under concurrent callers *)

Lemma filter_ext_elem (P1 P2 : nat → Prop)
    `{!∀ x, Decision (P1 x), !∀ x, Decision (P2 x)} (l : list nat) :
  (∀ x, x ∈ l → P1 x ↔ P2 x) → filter P1 l = filter P2 l.
Proof.
  induction l as [|x l IH]; intros Hiff; [done|].
  rewrite !filter_cons.
  assert (P1 x ↔ P2 x) as Hx by (apply Hiff; left).
  rewrite IH by (intros y Hy; apply Hiff; by right).
  destruct (decide (P1 x)), (decide (P2 x)); tauto.
Qed.

Lemma filter_one_more (P P' : nat → Prop)
    `{!∀ x, Decision (P x), !∀ x, Decision (P' x)} (l : list nat) (i : nat) :
  NoDup l → i ∈ l → ¬ P i → P' i → (∀ j, j ≠ i → P' j ↔ P j) →
  length (filter P' l) = S (length (filter P l)).
Proof.
  intros Hnd Hi HnP HP' Hiff. induction Hnd as [|x l Hx Hnd IH].
  - by apply elem_of_nil in Hi.
  - rewrite !filter_cons. apply elem_of_cons in Hi as [<- | Hi].
    + rewrite decide_True, decide_False by done. simpl. f_equal. f_equal.
      apply filter_ext_elem. intros y Hy. apply Hiff. by intros ->.
    + assert (x ≠ i) as Hne by (by intros ->).
      specialize (IH Hi). pose proof (Hiff x Hne) as Hxiff.
      destruct (decide (P' x)), (decide (P x)); simpl; try tauto; by rewrite IH.
Qed.

Section Stress.

Variable items : list (Event Ident Kind).
Variable s0 : metrics Ident * registry.
Variable obs0 : list Q.

Hypothesis items_distinct : NoDup (ident <$> items).
Hypothesis items_fresh : ∀ e, e ∈ items → sentTimes s0.1 !! ident e = None.
Hypothesis observer_known :
  observations (latencyObserver s0.1) s0.2 = Some obs0.

Implicit Types (h : list (nat * call Ident Kind * Time)).

Lemma idents_differ i j e e' :
  items !! i = Some e → items !! j = Some e' → i ≠ j → ident e ≠ ident e'.
Proof.
  intros Hi Hj Hne Heq. apply Hne.
  apply (NoDup_lookup (ident <$> items) i j (ident e)); [done| |].
  - by rewrite list_lookup_fmap, Hi.
  - by rewrite list_lookup_fmap, Hj, Heq.
Qed.

Lemma in_order_snoc h i cl clk :
  in_order items (h ++ [(i, cl, clk)]) →
  in_order items h
  ∧ ∃ e, items !! i = Some e
         ∧ ((calls_of i h = [] ∧ cl = Send e)
            ∨ (calls_of i h = [Send e] ∧ cl = Receive (ident e))).
Proof.
  intros [Htid Hord]. split; [split|].
  - intros x Hx. apply Htid, elem_of_app. by left.
  - intros j e Hj. specialize (Hord j e Hj).
    destruct (decide (i = j)) as [<- | Hne].
    + rewrite calls_of_snoc_eq in Hord. by eapply prefix_app_l.
    + by rewrite calls_of_snoc_ne in Hord.
  - assert (i < length items)%nat as Hlt.
    { apply (Htid (i, cl, clk)), elem_of_app. right. by apply list_elem_of_singleton. }
    apply lookup_lt_is_Some in Hlt as [e He]. exists e. split; [done|].
    specialize (Hord i e He). rewrite calls_of_snoc_eq in Hord.
    destruct Hord as [rest Hrest]. unfold item_prog in Hrest.
    destruct (calls_of i h) as [|a [|b l]]; simplify_eq/=; eauto.
    destruct l; discriminate.
Qed.

Lemma settling_start : settling items s0 obs0 [] s0.
Proof.
  unfold settling. split_and!.
  - reflexivity.
  - intros i e _ Hlen. discriminate Hlen.
  - intros i e He _. apply items_fresh. by eapply list_elem_of_lookup_2.
  - reflexivity.
  - exists []. rewrite app_nil_r. split; [exact observer_known|].
    unfold done_items. symmetry. apply length_zero_iff_nil.
    induction (seq 0 (length items)) as [|x l IH]; [done|].
    rewrite filter_cons_False; [exact IH|]. simpl. lia.
Qed.

Lemma settling_send h i e clk s :
  in_order items h → items !! i = Some e → calls_of i h = [] →
  settling items s0 obs0 h s →
  settling items s0 obs0 (h ++ [(i, Send e, clk)]) (send_locked s.1 e clk s.2).
Proof.
  intros Hord He Hcalls (Hobs & Hpend & Hfree & Hother & (obs & Hlog & Hcount)).
  assert (sentTimes s.1 !! ident e = None) as Hnone.
  { apply (Hfree i e He). by rewrite Hcalls. }
  unfold send_locked, stamp. rewrite Hnone. unfold settling; simpl. split_and!.
  - exact Hobs.
  - intros j e' Hj Hlen. destruct (decide (i = j)) as [<- | Hne].
    + simplify_eq. rewrite lookup_insert_eq. eauto.
    + rewrite calls_of_snoc_ne in Hlen by done.
      rewrite lookup_insert_ne by (by eapply idents_differ).
      by eapply Hpend.
  - intros j e' Hj Hlen. destruct (decide (i = j)) as [<- | Hne].
    + rewrite calls_of_snoc_eq, Hcalls in Hlen. by destruct Hlen.
    + rewrite calls_of_snoc_ne in Hlen by done.
      rewrite lookup_insert_ne by (by eapply idents_differ).
      by eapply Hfree.
  - intros k Hk. rewrite lookup_insert_ne; [by apply Hother|].
    intros <-. apply Hk. apply list_elem_of_fmap. exists e.
    split; [done|]. by eapply list_elem_of_lookup_2.
  - exists obs. unfold observations. rewrite latency_count_kind.
    split; [exact Hlog|]. rewrite Hcount. unfold done_items. f_equal.
    apply list_filter_iff. intros j. destruct (decide (i = j)) as [<- | Hne].
    + rewrite calls_of_snoc_eq, Hcalls. simpl. lia.
    + by rewrite calls_of_snoc_ne.
Qed.

Lemma settling_receive h i e clk s :
  in_order items h → items !! i = Some e → calls_of i h = [Send e] →
  settling items s0 obs0 h s →
  settling items s0 obs0 (h ++ [(i, Receive (ident e), clk)])
    (receive_locked s.1 (ident e) clk s.2).
Proof.
  intros Hord He Hcalls (Hobs & Hpend & Hfree & Hother & (obs & Hlog & Hcount)).
  destruct (Hpend i e He) as [ts Hts]; [by rewrite Hcalls|].
  rewrite <- Hobs in Hlog.
  rewrite (receive_pending _ _ clk _ _ _ Hts Hlog).
  unfold settling; simpl. split_and!.
  - exact Hobs.
  - intros j e' Hj Hlen. destruct (decide (i = j)) as [<- | Hne].
    + rewrite calls_of_snoc_eq, Hcalls in Hlen. discriminate Hlen.
    + rewrite calls_of_snoc_ne in Hlen by done.
      rewrite lookup_delete_ne by (by eapply idents_differ).
      by eapply Hpend.
  - intros j e' Hj Hlen. destruct (decide (i = j)) as [<- | Hne].
    + simplify_eq. apply lookup_delete_eq.
    + rewrite calls_of_snoc_ne in Hlen by done.
      rewrite lookup_delete_ne by (by eapply idents_differ).
      by eapply Hfree.
  - intros k Hk. rewrite lookup_delete_ne; [by apply Hother|].
    intros <-. apply Hk. apply list_elem_of_fmap. exists e.
    split; [done|]. by eapply list_elem_of_lookup_2.
  - exists (obs ++ [Seconds (Since clk ts)])%list.
    unfold observations; simpl. rewrite Hobs, lookup_insert_eq, app_assoc.
    split; [reflexivity|]. rewrite length_app, Hcount. simpl.
    unfold done_items. rewrite Nat.add_1_r. symmetry.
    apply (filter_one_more _ _ _ i).
    + apply NoDup_seq.
    + apply elem_of_seq. apply lookup_lt_Some in He. lia.
    + rewrite Hcalls. simpl. lia.
    + rewrite calls_of_snoc_eq, Hcalls. simpl. lia.
    + intros j Hne. by rewrite calls_of_snoc_ne.
Qed.

Lemma settling_replay h :
  in_order items h → settling items s0 obs0 h (replay h s0).
Proof.
  induction h as [|[[i cl] clk] h IH] using rev_ind; intros Hord.
  - apply settling_start.
  - apply in_order_snoc in Hord as (Hord & e & He & Hcase).
    rewrite replay_snoc. specialize (IH Hord).
    destruct Hcase as [[Hcalls ->] | [Hcalls ->]]; simpl.
    + by apply settling_send.
    + by apply settling_receive.
Qed.

(** X10.  Any number of items with different identities, none of them in the
    table, item [i] sent and then received by goroutine [i], under any
    schedule: when every goroutine has finished, the table is what it was at
    the start, and the histogram has gained as many observations as there
    are items. *)
Lemma stress_settles (sched : list (nat * Time)) :
  let c := run sched (start (item_prog <$> items) s0.1 s0.2) in
  finished c →
  sentTimes (obj c) = sentTimes s0.1
  ∧ ∃ obs, observations (latencyObserver s0.1) (reg c) = Some (obs0 ++ obs)%list
           ∧ length obs = length items.
Proof.
  cbv zeta. set (c := run sched _). intros Hfin.
  destruct (serial_run (item_prog <$> items) s0 sched None _
              (serial_start (item_prog <$> items) s0)) as [who Hinv].
  change (serial (item_prog <$> items) s0 who c) in Hinv.
  destruct Hinv as (_ & _ & Hpo & Hst & Hlen & Htid).
  rewrite length_fmap in Hlen, Htid.
  assert (∀ i e, items !! i = Some e → calls_of i (history c) = item_prog e)
    as Hall.
  { intros i e He.
    destruct (Hpo i (item_prog e)) as (g & Hg & Hcalls).
    { by rewrite list_lookup_fmap, He. }
    rewrite (Hfin i g Hg), app_nil_r in Hcalls. exact Hcalls. }
  destruct who as [i|].
  { destruct Hst as (g & cl & Hg & Hcl & _).
    rewrite (Hfin i g Hg) in Hcl. discriminate Hcl. }
  assert (in_order items (history c)) as Hord.
  { split; [exact Htid|]. intros i e He. by rewrite (Hall i e He). }
  pose proof (settling_replay _ Hord) as (Hobs & _ & Hfree & Hother & Hlog).
  rewrite <- Hst in Hfree, Hother, Hlog. simpl in Hfree, Hother, Hlog.
  split.
  - apply map_eq. intros k.
    destruct (decide (k ∈ ident <$> items)) as [Hk | Hk]; [|by apply Hother].
    apply list_elem_of_fmap in Hk as (e & -> & He).
    rewrite (items_fresh e He).
    apply list_elem_of_lookup in He as [i He].
    apply (Hfree i e He). by rewrite (Hall i e He).
  - destruct Hlog as (obs & Hlog & Hcount). exists obs. split; [exact Hlog|].
    rewrite Hcount. unfold done_items.
    rewrite (filter_ext_elem _ (λ _, True) (seq 0 (length items))).
    + assert (∀ l : list nat, filter (λ _, True) l = l) as Hid.
      { intros l. induction l as [|x l IH]; [done|].
        by rewrite filter_cons_True, IH. }
      rewrite Hid. apply length_seq.
    + intros j Hj. apply elem_of_seq in Hj.
      destruct (lookup_lt_is_Some_2 items j) as [e He]; [lia|].
      rewrite (Hall j e He). simpl. split; [done | lia].
Qed.

End Stress.

(** ** Construction on a registry that is in use *)

Lemma newMetrics_registry_counter name r c :
  counterValue c
    (ensure_observer [name]
       (touch [name; deleteLabel]
          (touch [name; updateLabel] (touch [name; addLabel] r))))
  = if decide (c ∈ [[name; addLabel]; [name; updateLabel]; [name; deleteLabel]])
    then Some (default 0%N (counterValue c r))
    else counterValue c r.
Proof.
  unfold counterValue at 1. rewrite adds_ensure_observer.
  fold (counterValue c (touch [name; deleteLabel]
          (touch [name; updateLabel] (touch [name; addLabel] r)))).
  rewrite !counterValue_touch.
  destruct (decide (c ∈ [[name; addLabel]; [name; updateLabel]; [name; deleteLabel]]))
    as [Hin | Hout].
  - rewrite !elem_of_cons, elem_of_nil in Hin.
    destruct Hin as [-> | [-> | [-> | []]]];
      repeat case_decide; try discriminate; try congruence;
      rewrite ?counterValue_touch; repeat case_decide;
      try discriminate; try congruence; reflexivity.
  - rewrite !elem_of_cons, elem_of_nil in Hout.
    repeat case_decide; subst; try reflexivity; exfalso; apply Hout; auto.
Qed.

(** X1.  [newMetrics] on any registry: it returns a tracker, every counter
    that had a value keeps it, every histogram keeps its observations, and
    the only children it creates are the three counters and the histogram of
    [name], with count zero and without observations. *)
Theorem newMetrics_keeps_registry (name : string) (r : registry) :
  ∃ (t : metrics Ident) r',
    newMetrics name r = Some (Some t, r')
    ∧ (∀ c n, counterValue c r = Some n → counterValue c r' = Some n)
    ∧ (∀ o obs, observations o r = Some obs → observations o r' = Some obs)
    ∧ (∀ c, counterValue c r = None → is_Some (counterValue c r') →
         counterValue c r' = Some 0%N
         ∧ c ∈ [[name; addLabel]; [name; updateLabel]; [name; deleteLabel]])
    ∧ (∀ o, observations o r = None → is_Some (observations o r') →
         observations o r' = Some [] ∧ o = [name]).
Proof.
  eexists _, _. split; [apply newMetrics_unfold|]. split_and!.
  - intros c n Hc. rewrite newMetrics_registry_counter, Hc.
    by case_decide.
  - intros o obs Ho. rewrite observations_ensure_observer.
    unfold observations in *. rewrite !latency_touch.
    case_decide; subst; by rewrite Ho.
  - intros c Hc. rewrite newMetrics_registry_counter, Hc.
    case_decide; [done|]. by intros [? ?].
  - intros o Ho. rewrite observations_ensure_observer.
    unfold observations in *. rewrite !latency_touch.
    case_decide; subst; rewrite Ho; [done|]. by intros [? ?].
Qed.

Lemma touch_present c r : is_Some (adds r !! c) → touch c r = r.
Proof.
  intros [n Hn]. unfold touch, Counter_Add. rewrite Hn.
  destruct r as [a l]; simpl in *. f_equal.
  apply alter_id. intros x _. lia.
Qed.

Lemma ensure_observer_present o r :
  is_Some (latency r !! o) → ensure_observer o r = r.
Proof. intros [l Hl]. unfold ensure_observer. by rewrite Hl. Qed.

(** X2.  A second [newMetrics] for the same name, at any later time at which
    the children of the first are in the registry, leaves the registry as it
    is and returns a tracker with the same counters and the same histogram:
    trackers of one name share their metrics. *)
Theorem newMetrics_again (name : string) (t : metrics Ident) (r : registry) :
  tracks name t r →
  newMetrics name r = Some (Some (set_sentTimes (λ _, ∅) t), r).
Proof.
  intros (Ea & Eu & Ed & El & Ha & Hu & Hd & Hl).
  rewrite newMetrics_unfold. unfold counterValue, observations in *.
  rewrite (touch_present _ r Ha), (touch_present _ r Hu),
    (touch_present _ r Hd), (ensure_observer_present _ r Hl).
  unfold set_sentTimes. by rewrite Ea, Eu, Ed, El.
Qed.

(** ** Sequences of calls

    A history made one call after the other ([replay]); by the theorem on
    concurrent callers this is also what any execution has done each time
    the mutex is free. *)

Section Histories.

Implicit Types (cl : call Ident Kind) (h : list (nat * call Ident Kind * Time)).
Implicit Types (s : metrics Ident * registry).

(** A call changes nothing of the tracker but its table. *)
Lemma exec_handles cl now s :
  (exec cl now s).1 = set_sentTimes (λ _, sentTimes (exec cl now s).1) s.1.
Proof.
  destruct s as [t r], cl as [evt | key]; simpl.
  - unfold stamp. destruct (sentTimes t !! ident evt); by destruct t.
  - unfold receive_locked. destruct (sentTimes t !! key); by destruct t.
Qed.

Lemma replay_handles h s :
  (replay h s).1 = set_sentTimes (λ _, sentTimes (replay h s).1) s.1.
Proof.
  induction h as [|[[i cl] clk] h IH] using rev_ind.
  - by destruct s as [[] ?].
  - rewrite replay_snoc, exec_handles.
    generalize (sentTimes (exec cl clk (replay h s)).1). intros m.
    by rewrite IH.
Qed.

Lemma count_calls_snoc (p : call Ident Kind → bool) h i cl clk :
  count_calls p (h ++ [(i, cl, clk)])
  = (count_calls p h + (if p cl then 1 else 0))%nat.
Proof.
  unfold count_calls. rewrite filter_app, length_app. f_equal.
  rewrite filter_cons. simpl. by destruct (p cl).
Qed.

(** The entry of one identity after one call. *)
Lemma lookup_exec cl now s key :
  sentTimes (exec cl now s).1 !! key
  = match cl with
    | Send evt =>
        if decide (ident evt = key)
        then Some (default now (sentTimes s.1 !! key))
        else sentTimes s.1 !! key
    | Receive evt =>
        if decide (evt = key) then None else sentTimes s.1 !! key
    end.
Proof.
  destruct s as [t r], cl as [evt | k]; simpl.
  - unfold stamp. case_decide as Hk.
    + subst key. destruct (sentTimes t !! ident evt) as [ts|] eqn:E; simpl.
      * by rewrite E.
      * apply lookup_insert_eq.
    + destruct (sentTimes t !! ident evt); simpl; [done|].
      by rewrite lookup_insert_ne.
  - unfold receive_locked. case_decide as Hk.
    + subst key. destruct (sentTimes t !! k) eqn:E; simpl; [|done].
      apply lookup_delete_eq.
    + destruct (sentTimes t !! k); simpl; [|done].
      by rewrite lookup_delete_ne.
Qed.

(** X3.  The recorded timestamp of a pending identity stays as it is through
    any sequence of calls that has no [receive] for it, whatever is sent
    again and whatever happens to other identities. *)
Theorem pending_until_received s h (key : Ident) (ts : Time) :
  (∀ x, x ∈ h → x.1.2 ≠ Receive key) →
  sentTimes s.1 !! key = Some ts →
  sentTimes (replay h s).1 !! key = Some ts.
Proof.
  induction h as [|[[i cl] clk] h IH] using rev_ind; intros Hno Hk; [done|].
  rewrite replay_snoc, lookup_exec.
  rewrite IH; [|intros x Hx; apply Hno, elem_of_app; by left|done].
  destruct cl as [evt | k]; repeat case_decide; subst; try done.
  exfalso. apply (Hno (i, Receive key, clk)); [|done].
  apply elem_of_app. right. by apply list_elem_of_singleton.
Qed.

(** X4.  An identity that is not in the table is not in it after any
    sequence of calls that has no [send] for it: no call makes another
    identity pending. *)
Theorem settled_until_sent s h (key : Ident) :
  (∀ x, x ∈ h → is_send x.1.2 = true → call_ident x.1.2 ≠ key) →
  sentTimes s.1 !! key = None →
  sentTimes (replay h s).1 !! key = None.
Proof.
  induction h as [|[[i cl] clk] h IH] using rev_ind; intros Hno Hk; [done|].
  rewrite replay_snoc, lookup_exec.
  rewrite IH; [|intros x Hx; apply Hno, elem_of_app; by left|done].
  destruct cl as [evt | k]; repeat case_decide; subst; try done.
  exfalso. apply (Hno (i, Send evt, clk)); [|done..].
  apply elem_of_app. right. by apply list_elem_of_singleton.
Qed.

Lemma adds_exec_Receive key now s : adds (exec (Receive key) now s).2 = adds s.2.
Proof.
  destruct s as [t r]; simpl. unfold receive_locked.
  by destruct (sentTimes t !! key).
Qed.

Lemma readings_count_kind (name : string) t r (k : Kind) (a u d : N) :
  Added ≠ Modified → Added ≠ Deleted → Modified ≠ Deleted →
  tracks name t r →
  readings t r = (Some a, Some u, Some d) →
  readings t (count_kind t k r)
  = (Some (a + N.b2n (bool_decide (k = Added)))%N,
     Some (u + N.b2n (bool_decide (k = Modified)))%N,
     Some (d + N.b2n (bool_decide (k = Deleted)))%N).
Proof.
  intros Ham Had Hmd (Ea & Eu & Ed & _) Hrd.
  unfold readings in *. injection Hrd as Ha Hu Hd.
  assert (addCounter t ≠ updateCounter t) as N1 by (rewrite Ea, Eu; discriminate).
  assert (addCounter t ≠ deleteCounter t) as N2 by (rewrite Ea, Ed; discriminate).
  assert (updateCounter t ≠ deleteCounter t) as N3 by (rewrite Eu, Ed; discriminate).
  destruct (decide (k = Added)) as [-> | K1];
    [|destruct (decide (k = Modified)) as [-> | K2];
      [|destruct (decide (k = Deleted)) as [-> | K3]]].
  - rewrite (count_kind_Added _ _ _ eq_refl).
    rewrite counterValue_Inc_eq, !counterValue_Inc_ne, Ha, Hu, Hd by done.
    repeat case_bool_decide; try congruence.
    simpl. rewrite !N.add_0_r. repeat f_equal. lia.
  - rewrite (count_kind_Modified _ _ _ Ham eq_refl).
    rewrite counterValue_Inc_eq, !counterValue_Inc_ne, Ha, Hu, Hd by done.
    repeat case_bool_decide; try congruence.
    simpl. rewrite !N.add_0_r. repeat f_equal. lia.
  - rewrite (count_kind_Deleted _ _ _ Had Hmd eq_refl).
    rewrite counterValue_Inc_eq, !counterValue_Inc_ne, Ha, Hu, Hd by done.
    repeat case_bool_decide; try congruence.
    simpl. rewrite !N.add_0_r. repeat f_equal. lia.
  - rewrite count_kind_other by done.
    repeat case_bool_decide; try congruence.
    rewrite Ha, Hu, Hd. simpl. by rewrite !N.add_0_r.
Qed.

Lemma is_Some_count_kind t (k : Kind) r c :
  is_Some (counterValue c r) → is_Some (counterValue c (count_kind t k r)).
Proof.
  intros Hc. unfold count_kind, Counter_Inc, Counter_Add, counterValue in *.
  repeat case_decide; simpl; try done;
    rewrite lookup_alter; case_decide; subst; try done; by apply fmap_is_Some.
Qed.

Lemma is_Some_Observe o o' v r :
  is_Some (observations o' r) → is_Some (observations o' (Observe o v r)).
Proof.
  intros Ho. unfold Observe, observations in *; simpl.
  rewrite lookup_alter; case_decide; subst; try done; by apply fmap_is_Some.
Qed.

Lemma tracks_exec (name : string) cl now s :
  tracks name s.1 s.2 → tracks name (exec cl now s).1 (exec cl now s).2.
Proof.
  intros (Ea & Eu & Ed & El & Ha & Hu & Hd & Hl).
  rewrite exec_handles. destruct s as [t r]; simpl in *.
  unfold tracks; simpl. split_and!; try done.
  all: destruct cl as [evt | key]; simpl.
  all: try by apply is_Some_count_kind.
  all: try (unfold observations; by rewrite latency_count_kind).
  all: unfold receive_locked; destruct (sentTimes t !! key); simpl; try done.
  by apply is_Some_Observe.
Qed.

(** The counters after a sequence of calls. *)
Lemma readings_replay (name : string) t r h (a u d : N) :
  Added ≠ Modified → Added ≠ Deleted → Modified ≠ Deleted →
  tracks name t r →
  readings t r = (Some a, Some u, Some d) →
  readings t (replay h (t, r)).2
  = (Some (a + N.of_nat (count_calls (sends_kind Added) h))%N,
     Some (u + N.of_nat (count_calls (sends_kind Modified) h))%N,
     Some (d + N.of_nat (count_calls (sends_kind Deleted) h))%N).
Proof.
  intros Ham Had Hmd Htr Hrd.
  assert (tracks name (replay h (t, r)).1 (replay h (t, r)).2
          ∧ readings t (replay h (t, r)).2
            = (Some (a + N.of_nat (count_calls (sends_kind Added) h))%N,
               Some (u + N.of_nat (count_calls (sends_kind Modified) h))%N,
               Some (d + N.of_nat (count_calls (sends_kind Deleted) h))%N))
    as [_ Hgoal]; [|exact Hgoal].
  induction h as [|[[i cl] clk] h [IHtr IH]] using rev_ind.
  - split; [exact Htr|]. simpl. unfold count_calls; simpl.
    by rewrite !N.add_0_r.
  - rewrite replay_snoc. split; [by apply tracks_exec|].
    rewrite !count_calls_snoc.
    pose proof (replay_handles h (t, r)) as Hh. simpl in Hh.
    destruct (replay h (t, r)) as [t' r'] eqn:Hs. simpl in *.
    assert (readings t' = readings t) as Hrt
      by (rewrite Hh; reflexivity).
    destruct cl as [evt | key]; simpl.
    + rewrite <- Hrt in IH |- *.
      rewrite (readings_count_kind name t' r' (evType evt) _ _ _
                 Ham Had Hmd IHtr IH).
      repeat (f_equal; try (destruct (bool_decide _); simpl; lia)).
    + unfold readings, counterValue in *.
      pose proof (adds_exec_Receive key clk (t', r')) as Hadds.
      simpl in Hadds. rewrite Hadds, !Nat.add_0_r. exact IH.
Qed.

(** X5.  After any sequence of calls on a tracker built by [newMetrics], each
    of its three counters has grown by the number of [send] calls for an
    event of its kind: [receive] counts nothing, and a [send] counts once,
    also when the identity is already pending. *)
Theorem sends_are_counted (name : string) t r h (a u d : N) :
  Added ≠ Modified → Added ≠ Deleted → Modified ≠ Deleted →
  tracks name t r →
  readings t r = (Some a, Some u, Some d) →
  readings t (replay h (t, r)).2
  = (Some (a + N.of_nat (count_calls (sends_kind Added) h))%N,
     Some (u + N.of_nat (count_calls (sends_kind Modified) h))%N,
     Some (d + N.of_nat (count_calls (sends_kind Deleted) h))%N).
Proof. apply readings_replay. Qed.

(** X6.  After any sequence of calls, the histogram of the tracker has kept
    its earlier observations and gained at most one for each [receive], and
    the new observations and the entries of the table together are at most
    the entries there were and the [send] calls made: an observation is
    never made without a [send] that accounts for it. *)
Theorem observations_are_matched t r h (obs0 : list Q) :
  observations (latencyObserver t) r = Some obs0 →
  ∃ obs,
    observations (latencyObserver t) (replay h (t, r)).2 = Some (obs0 ++ obs)%list
    ∧ (length obs ≤ count_calls is_receive h)%nat
    ∧ (length obs + size (sentTimes (replay h (t, r)).1)
       ≤ size (sentTimes t) + count_calls is_send h)%nat.
Proof.
  intros Ho. induction h as [|[[i cl] clk] h IH] using rev_ind.
  - exists []. rewrite app_nil_r. simpl. unfold count_calls; simpl.
    split_and!; [done | lia | lia].
  - destruct IH as (obs & Hlog & Hrecv & Hsize).
    rewrite replay_snoc, !count_calls_snoc.
    pose proof (replay_handles h (t, r)) as Hh. simpl in Hh.
    destruct (replay h (t, r)) as [t' r'] eqn:Hs. simpl in *.
    assert (latencyObserver t' = latencyObserver t) as Hl
      by (rewrite Hh; reflexivity).
    destruct cl as [evt | key]; simpl.
    + exists obs. unfold observations in *.
      rewrite latency_count_kind. split_and!; [done | lia |].
      unfold stamp. destruct (sentTimes t' !! ident evt) eqn:E; simpl; [lia|].
      rewrite map_size_insert_None by done. lia.
    + destruct (sentTimes t' !! key) as [ts|] eqn:E.
      * rewrite <- Hl in Hlog.
        rewrite (receive_pending _ _ clk _ _ _ E Hlog). simpl.
        exists (obs ++ [Seconds (Since clk ts)])%list.
        unfold observations; simpl.
        rewrite Hl, lookup_insert_eq, app_assoc, length_app; simpl.
        split_and!; [done | lia |].
        rewrite map_size_delete_Some by eauto.
        assert (size (sentTimes t') ≠ 0)%nat.
        { intros Hz. apply map_size_empty_inv in Hz.
          rewrite Hz, lookup_empty in E. discriminate. }
        lia.
      * rewrite receive_settled by done. simpl.
        exists obs. split_and!; [done | lia | lia].
Qed.

Lemma Counter_Inc_commute c1 c2 r :
  Counter_Inc c1 (Counter_Inc c2 r) = Counter_Inc c2 (Counter_Inc c1 r).
Proof.
  unfold Counter_Inc, Counter_Add; simpl. f_equal.
  destruct (decide (c1 = c2)) as [-> | Hne]; [done|]. by apply alter_alter_ne.
Qed.

Lemma count_kind_commute t t' (k1 k2 : Kind) r :
  count_kind t k1 (count_kind t' k2 r) = count_kind t' k2 (count_kind t k1 r).
Proof.
  unfold count_kind. repeat case_decide; try reflexivity;
    apply Counter_Inc_commute.
Qed.

Lemma count_kind_Observe t (k : Kind) o v r :
  count_kind t k (Observe o v r) = Observe o v (count_kind t k r).
Proof. unfold count_kind. repeat case_decide; reflexivity. Qed.

Lemma count_kind_stamp t key now (k : Kind) r :
  count_kind (stamp t key now) k r = count_kind t k r.
Proof. unfold stamp. by destruct (sentTimes t !! key). Qed.

Lemma lookup_stamp_ne t key key' now :
  key ≠ key' → sentTimes (stamp t key now) !! key' = sentTimes t !! key'.
Proof.
  intros Hne. unfold stamp. destruct (sentTimes t !! key); simpl; [done|].
  by rewrite lookup_insert_ne.
Qed.

(** X7.  A [send] and a call for another identity can be made in either
    order: the tracker and the registry end up the same.  (Two [receive]
    calls do not commute in this sense, since each appends to the sequence
    of observations.) *)
Theorem send_commutes s evt (n1 : Time) cl (n2 : Time) :
  ident evt ≠ call_ident cl →
  exec (Send evt) n1 (exec cl n2 s) = exec cl n2 (exec (Send evt) n1 s).
Proof.
  destruct s as [t r], cl as [e2 | key]; simpl; intros Hne.
  - unfold send_locked; simpl. f_equal.
    + unfold stamp.
      destruct (sentTimes t !! ident e2) eqn:E2,
               (sentTimes t !! ident evt) eqn:E1; simpl;
        rewrite ?E1, ?E2, ?lookup_insert_ne, ?E1, ?E2 by done; simpl; try done.
      unfold set_sentTimes; simpl. f_equal. by apply insert_insert_ne.
    + rewrite !count_kind_stamp. apply count_kind_commute.
  - unfold send_locked, receive_locked; simpl.
    rewrite (lookup_stamp_ne t (ident evt) key n1 Hne).
    destruct (sentTimes t !! key) as [startTime|] eqn:Ek; simpl; [|done].
    f_equal.
    + unfold stamp; simpl. rewrite lookup_delete_ne by done.
      destruct (sentTimes t !! ident evt) eqn:E1; simpl; [done|].
      unfold set_sentTimes; simpl. f_equal. symmetry. by apply delete_insert_ne.
    + rewrite count_kind_Observe. f_equal.
      unfold stamp. by destruct (sentTimes t !! ident evt).
Qed.

End Histories.

(** ** Concurrent callers: calls return and the mutex is released *)

Section Progress.

Variable progs : list (list (call Ident Kind)).
Variable s0 : metrics Ident * registry.

Implicit Types (c : config Ident Kind) (g : goroutine Ident Kind).
Implicit Types (cl : call Ident Kind) (who : option nat).

(** One step of the goroutine that holds the mutex, or of any goroutine with
    a call to make when the mutex is free: it returns from its call, or it
    moves to a point that is nearer to its [Unlock]. *)
Lemma step_advances who c i g cl rest now :
  serial progs s0 who c →
  goroutines c !! i = Some g → todo g = cl :: rest →
  at_point g ≠ AtLock ∨ Mutex c = false →
  returned i cl rest c (step i now c)
  ∨ ∃ g1, goroutines (step i now c) !! i = Some g1
          ∧ todo g1 = cl :: rest
          ∧ at_point g1 ≠ AtLock
          ∧ (steps_left (at_point g1) < steps_left (at_point g))%nat
          ∧ history (step i now c) = history c.
Proof.
  intros Hinv Hg Htodo Hcan.
  assert (head (todo g) = Some cl) as Hcl by (by rewrite Htodo).
  unfold step. rewrite Hg, Htodo.
  destruct (at_point g) eqn:Hp.
  { (* Lock *)
    destruct Hcan as [Hcan | HM]; [done|]. rewrite HM. right.
    eexists. split_and!.
    - simpl. rewrite list_lookup_alter_eq, Hg. reflexivity.
    - exact Htodo.
    - by destruct cl.
    - destruct cl; simpl; lia.
    - reflexivity. }
  all: assert (who = Some i) as ->
         by (eapply serial_holder; eauto; rewrite Hp; discriminate).
  all: pose proof Hinv as (_ & _ & _ & (g' & cl' & Hg' & Hcl' & Hmid) & _).
  all: rewrite Hg in Hg'; injection Hg' as <-.
  all: rewrite Hcl in Hcl'; injection Hcl' as <-.
  all: rewrite Hp in Hmid.
  all: destruct cl as [evt | evt]; simpl in Hmid; try done.
  all: lazymatch type of Hp with
       | _ = AtUnlock _ =>
           left; unfold returned, unlock; simpl; split_and!;
           [ reflexivity
           | rewrite list_lookup_alter_eq, Hg; simpl; by rewrite Htodo
           | eexists; reflexivity ]
       | _ =>
           right; try destruct (sentTimes (obj c) !! _);
           eexists; (split_and!;
             [ simpl; rewrite list_lookup_alter_eq, Hg; reflexivity
             | exact Htodo | discriminate | simpl; lia | reflexivity ])
       end.
Qed.

(** A goroutine that can move as above returns from its call within the
    steps it has left, if only it is scheduled. *)
Lemma call_returns_within (n : nat) who c i g cl rest now :
  serial progs s0 who c →
  goroutines c !! i = Some g → todo g = cl :: rest →
  at_point g ≠ AtLock ∨ Mutex c = false →
  (steps_left (at_point g) ≤ n)%nat →
  ∃ m, (m ≤ n)%nat ∧ returned i cl rest c (run (replicate m (i, now)) c).
Proof.
  revert who c g. induction n as [|n IH]; intros who c g Hinv Hg Htodo Hcan Hn.
  { destruct (at_point g); simpl in Hn; lia. }
  destruct (step_advances who c i g cl rest now Hinv Hg Htodo Hcan)
    as [Hret | (g1 & Hg1 & Htodo1 & Hp1 & Hless & Hhist)].
  - exists 1%nat. split; [lia|]. exact Hret.
  - destruct (serial_step progs s0 who c i now Hinv) as [who1 Hinv1].
    destruct (IH who1 (step i now c) g1 Hinv1 Hg1 Htodo1) as (m & Hm & Hret).
    + by left.
    + lia.
    + exists (S m). split; [lia|]. simpl.
      destruct Hret as (HM & Hgi & clk & Hh). split_and!; try done.
      exists clk. by rewrite Hh, Hhist.
Qed.

End Progress.


(** X9.  No state of any execution is stuck: as long as some goroutine has a
    call to make, there is a goroutine that returns from a call within five
    steps of its own, the mutex free again and the history one call longer. *)
Theorem no_deadlock
    (progs : list (list (call Ident Kind))) (t0 : metrics Ident)
    (r0 : registry) (sched : list (nat * Time)) (now : Time)
    (j : nat) (gj : goroutine Ident Kind) :
  let c := run sched (start progs t0 r0) in
  goroutines c !! j = Some gj → todo gj ≠ [] →
  ∃ i n,
    (n ≤ 5)%nat
    ∧ let c' := run (replicate n (i, now)) c in
      Mutex c' = false ∧ length (history c') = S (length (history c)).
Proof.
  cbv zeta. set (c := run sched (start progs t0 r0)). intros Hj Hwork.
  destruct (serial_run progs (t0, r0) sched None _ (serial_start progs (t0, r0)))
    as [who Hinv].
  change (serial progs (t0, r0) who c) in Hinv.
  assert (∃ i g cl rest,
            goroutines c !! i = Some g ∧ todo g = cl :: rest
            ∧ (at_point g ≠ AtLock ∨ Mutex c = false))
    as (i & g & cl & rest & Hg & Htodo & Hcan).
  { pose proof Hinv as (HM & _ & _ & Hst & _). destruct who as [i|].
    - destruct Hst as (g & cl & Hg & Hcl & Hmid).
      exists i, g, cl, (tail (todo g)). split_and!; [done| |].
      + destruct (todo g); simplify_eq/=. reflexivity.
      + left. intros Hp. rewrite Hp in Hmid. by destruct cl.
    - rewrite bool_decide_false in HM by (by intros [? ?]).
      destruct (todo gj) as [|cl rest] eqn:Htodo; [done|].
      exists j, gj, cl, rest. split_and!; [done | done | by right]. }
  destruct (call_returns_within progs (t0, r0) 5 who c i g cl rest now
              Hinv Hg Htodo Hcan) as (n & Hn & HM & Hgi & clk & Hh).
  { destruct (at_point g); simpl; lia. }
  exists i, n. split_and!; try done.
  rewrite Hh, length_app. simpl. lia.
Qed.

(** X11.  Counts are not lost to concurrent callers: in any execution on a
    tracker built by [newMetrics], each time the mutex is free each of the
    three counters has grown by the number of finished [send] calls for an
    event of its kind. *)
Theorem counts_survive_concurrency
    (name : string) (progs : list (list (call Ident Kind)))
    (t0 : metrics Ident) (r0 : registry) (sched : list (nat * Time))
    (a u d : N) :
  Added ≠ Modified → Added ≠ Deleted → Modified ≠ Deleted →
  tracks name t0 r0 →
  readings t0 r0 = (Some a, Some u, Some d) →
  let c := run sched (start progs t0 r0) in
  Mutex c = false →
  readings t0 (reg c)
  = (Some (a + N.of_nat (count_calls (sends_kind Added) (history c)))%N,
     Some (u + N.of_nat (count_calls (sends_kind Modified) (history c)))%N,
     Some (d + N.of_nat (count_calls (sends_kind Deleted) (history c)))%N).
Proof.
  intros Ham Had Hmd Htr Hrd. cbv zeta.
  set (c := run sched (start progs t0 r0)). intros HMf.
  destruct (serial_run progs (t0, r0) sched None _ (serial_start progs (t0, r0)))
    as [who Hinv].
  change (serial progs (t0, r0) who c) in Hinv.
  destruct Hinv as (HM & _ & _ & Hst & _).
  rewrite HMf in HM. destruct who as [i|].
  { rewrite bool_decide_true in HM by eauto. discriminate. }
  rewrite <- (readings_replay name t0 r0 (history c) a u d Ham Had Hmd Htr Hrd).
  by rewrite <- Hst.
Qed.

Lemma tracks_registry (name : string) t r r' :
  tracks name t r →
  (∀ c, is_Some (counterValue c r) → is_Some (counterValue c r')) →
  (∀ o, is_Some (observations o r) → is_Some (observations o r')) →
  tracks name t r'.
Proof.
  intros (Ea & Eu & Ed & El & Ha & Hu & Hd & Hl) Hc Ho.
  unfold tracks. split_and!; auto.
Qed.

(** A call on any tracker keeps the children of a tracker. *)
Lemma tracks_after_exec (name : string) t (t' : metrics Ident) r
    (cl : call Ident Kind) now :
  tracks name t r → tracks name t (exec cl now (t', r)).2.
Proof.
  intros Htr. apply (tracks_registry name t r); [done| |].
  - intros c Hc. destruct cl as [evt | key]; simpl.
    + by apply is_Some_count_kind.
    + unfold receive_locked. by destruct (sentTimes t' !! key).
  - intros o Ho. destruct cl as [evt | key]; simpl.
    + unfold observations. by rewrite latency_count_kind.
    + unfold receive_locked. destruct (sentTimes t' !! key); simpl; [|done].
      by apply is_Some_Observe.
Qed.

(** X12.  No call on any tracker and no construction for any name takes a
    child out of the registry: the counters and the histogram of a tracker
    built by [newMetrics] stay readable whatever else is done. *)
Theorem children_persist (name : string) t r :
  tracks name t r →
  (∀ (t' : metrics Ident) (cl : call Ident Kind) now,
     tracks name t (exec cl now (t', r)).2)
  ∧ (∀ name', ∃ (m : option (metrics Ident)) r',
       newMetrics name' r = Some (m, r') ∧ tracks name t r').
Proof.
  intros Htr. split.
  - intros t' cl now. by apply tracks_after_exec.
  - intros name'. eexists _, _. split; [apply newMetrics_unfold|].
    apply (tracks_registry name t r); [done| |].
    + intros c [n Hc]. rewrite newMetrics_registry_counter, Hc.
      case_decide; eauto.
    + intros o [l Ho]. rewrite observations_ensure_observer.
      unfold observations in *. rewrite !latency_touch, Ho.
      case_decide; subst; [rewrite Ho|]; eauto.
Qed.

Lemma exec_other_queue (n1 n2 : string) t1 t2 r (cl : call Ident Kind) now :
  n1 ≠ n2 → tracks n1 t1 r → tracks n2 t2 r →
  readings t2 (exec cl now (t1, r)).2 = readings t2 r
  ∧ observations (latencyObserver t2) (exec cl now (t1, r)).2
    = observations (latencyObserver t2) r.
Proof.
  intros Hne (Ea1 & Eu1 & Ed1 & El1 & _) (Ea2 & Eu2 & Ed2 & El2 & _).
  assert (∀ c, c ≠ addCounter t1 → c ≠ updateCounter t1 → c ≠ deleteCounter t1 →
            ∀ k : Kind, counterValue c (count_kind t1 k r) = counterValue c r)
    as Hother.
  { intros c Ca Cu Cd k. unfold count_kind.
    repeat case_decide; try reflexivity; by apply counterValue_Inc_ne. }
  destruct cl as [evt | key]; simpl.
  - split.
    + unfold readings. rewrite !Hother; try reflexivity;
        rewrite ?Ea1, ?Eu1, ?Ed1, ?Ea2, ?Eu2, ?Ed2; congruence.
    + unfold observations. by rewrite latency_count_kind.
  - unfold receive_locked. destruct (sentTimes t1 !! key); simpl; [|done].
    split; [reflexivity|].
    unfold observations, Observe; simpl.
    rewrite lookup_alter_ne; [done|]. rewrite El1, El2. congruence.
Qed.

(** X13.  Queues of different names do not disturb each other: whatever
    sequence of calls is made on the tracker of one queue, the counters of
    the tracker of another queue read what they read before, and its
    histogram has the observations it had. *)
Theorem queues_are_isolated (n1 n2 : string) t1 t2 r
    (h : list (nat * call Ident Kind * Time)) :
  n1 ≠ n2 → tracks n1 t1 r → tracks n2 t2 r →
  readings t2 (replay h (t1, r)).2 = readings t2 r
  ∧ observations (latencyObserver t2) (replay h (t1, r)).2
    = observations (latencyObserver t2) r.
Proof.
  intros Hne Ht1 Ht2.
  assert (tracks n1 (replay h (t1, r)).1 (replay h (t1, r)).2
          ∧ tracks n2 t2 (replay h (t1, r)).2
          ∧ readings t2 (replay h (t1, r)).2 = readings t2 r
          ∧ observations (latencyObserver t2) (replay h (t1, r)).2
            = observations (latencyObserver t2) r) as (_ & _ & Hgoal);
    [|exact Hgoal].
  induction h as [|[[i cl] clk] h (IH1 & IH2 & IHr & IHo)] using rev_ind.
  - by split_and!.
  - rewrite replay_snoc.
    destruct (replay h (t1, r)) as [t' r'] eqn:Hs. simpl in *.
    destruct (exec_other_queue n1 n2 t' t2 r' cl clk Hne IH1 IH2) as [Hr Ho].
    split_and!.
    + apply (tracks_exec n1 cl clk (t', r')). exact IH1.
    + by apply tracks_after_exec.
    + by rewrite Hr.
    + by rewrite Ho.
Qed.

End Properties.

(** ** The properties at the sample values *)

Lemma newMetrics_sample :
  newMetrics "q" init = Some (Some sample_tracker, sample_registry).
Proof. vm_compute. reflexivity. Qed.

(** The sample execution: both calls finish, in the order sender, receiver,
    and the one observation is two and a half seconds. *)
Lemma sample_execution :
  let c := run sample_schedule (start sample_progs sample_tracker sample_registry) in
  Mutex c = false
  ∧ history c = [(0%nat, Send (sample_event "Added"), 100);
                 (1%nat, Receive 7%nat, 2500000100)]
  ∧ sentTimes (obj c) = ∅
  ∧ counterValue ["q"; "Add"] (reg c) = Some 1%N
  ∧ observations ["q"] (reg c) = Some [Seconds 2500000000].
Proof. vm_compute. split_and!; reflexivity. Qed.

(** [send] and [receive] of identity 7 on a new tracker: one observation, of
    two and a half seconds. *)
Lemma send_receive_observes_once_witness :
  observations (latencyObserver sample_tracker) sample_registry = Some []
  ∧ ∃ t1 r1 t2 r2 ts,
      send (Some sample_tracker) (sample_event "Added") 100 sample_registry
      = (Some t1, r1)
      ∧ sentTimes t1 !! 7%nat = Some ts
      ∧ (sentTimes sample_tracker !! 7%nat = None → ts = 100)
      ∧ receive (Some t1) 7%nat 2500000100 r1 = (Some t2, r2)
      ∧ latency r2
        = <[ ["q"] := [Seconds (Since 2500000100 ts)] ]> (latency sample_registry)
      ∧ (Seconds (Since 2500000100 ts) == (2500000100 - ts) # 1000000000)%Q
      ∧ sentTimes t2 !! 7%nat = None.
Proof.
  split; [reflexivity|].
  apply (send_receive_observes_once sample_tracker sample_registry
           (sample_event "Added") 100 2500000100 []).
  reflexivity.
Defined.

(** Identity 7 is pending since 40; a [send] at 100 does not move the
    timestamp. *)
Lemma send_again_keeps_timestamp_witness :
  sentTimes sample_pending !! 7%nat = Some 40
  ∧ observations (latencyObserver sample_pending) sample_registry = Some []
  ∧ ∃ r1 t2 r2,
      send (Some sample_pending) (sample_event "Added") 100 sample_registry
      = (Some sample_pending, r1)
      ∧ receive (Some sample_pending) 7%nat 2500000040 r1 = (Some t2, r2)
      ∧ latency r2
        = <[ ["q"] := [Seconds (Since 2500000040 40)] ]> (latency sample_registry).
Proof.
  split; [reflexivity|]. split; [reflexivity|].
  apply (send_again_keeps_timestamp sample_pending sample_registry
           (sample_event "Added") 100 2500000040 40 []); reflexivity.
Defined.

(** Identity 7 is pending since 40 and received twice. *)
Lemma receive_twice_observes_once_witness :
  status sample_pending 7%nat = pending 40
  ∧ observations (latencyObserver sample_pending) sample_registry = Some []
  ∧ (∀ (t' : metrics nat) key', length (held t' key') ≤ 1)%nat
  ∧ ∃ t1 r1,
      receive (Some sample_pending) 7%nat 2500000040 sample_registry = (Some t1, r1)
      ∧ status t1 7%nat = settled
      ∧ latency r1
        = <[ ["q"] := [Seconds (Since 2500000040 40)] ]> (latency sample_registry)
      ∧ receive (Some t1) 7%nat 2500000090 r1 = (Some t1, r1).
Proof.
  split; [reflexivity|]. split; [reflexivity|].
  apply (receive_twice_observes_once sample_pending sample_registry 7%nat
           2500000040 2500000090 40 []); reflexivity.
Defined.

(** Identity 7 was never sent to the new tracker. *)
Lemma receive_absent_is_noop_witness :
  sentTimes sample_tracker !! 7%nat = None
  ∧ receive (Some sample_tracker) 7%nat 100 sample_registry
    = (Some sample_tracker, sample_registry).
Proof.
  split; [reflexivity|].
  apply (receive_absent_is_noop sample_tracker sample_registry 7%nat 100).
  reflexivity.
Defined.

(** An event of kind [Modified] on the new tracker for queue [q]. *)
Lemma send_counts_its_kind_witness :
  (Added : string) ≠ Modified ∧ (Added : string) ≠ Deleted
  ∧ (Modified : string) ≠ Deleted
  ∧ tracks "q" sample_tracker sample_registry
  ∧ readings sample_tracker sample_registry = (Some 0%N, Some 0%N, Some 0%N)
  ∧ ∃ t1 r1,
      send (Some sample_tracker) (sample_event "Modified") 100 sample_registry
      = (Some t1, r1)
      ∧ (evType (sample_event "Modified") = Added →
           readings sample_tracker r1 = (Some (0 + 1)%N, Some 0%N, Some 0%N))
      ∧ (evType (sample_event "Modified") = Modified →
           readings sample_tracker r1 = (Some 0%N, Some (0 + 1)%N, Some 0%N))
      ∧ (evType (sample_event "Modified") = Deleted →
           readings sample_tracker r1 = (Some 0%N, Some 0%N, Some (0 + 1)%N))
      ∧ (evType (sample_event "Modified") ≠ Added →
         evType (sample_event "Modified") ≠ Modified →
         evType (sample_event "Modified") ≠ Deleted →
           r1 = sample_registry)
      ∧ (∀ c, c ≠ addCounter sample_tracker → c ≠ updateCounter sample_tracker →
              c ≠ deleteCounter sample_tracker →
           counterValue c r1 = counterValue c sample_registry).
Proof.
  assert (tracks "q" sample_tracker sample_registry) as Htracks.
  { unfold tracks. split_and!; try reflexivity.
    - exists 0%N. reflexivity.
    - exists 0%N. reflexivity.
    - exists 0%N. reflexivity.
    - exists []. reflexivity. }
  split; [discriminate|]. split; [discriminate|]. split; [discriminate|].
  split; [exact Htracks|]. split; [reflexivity|].
  apply (send_counts_its_kind "q" sample_tracker sample_registry
           (sample_event "Modified") 100 0%N 0%N 0%N);
    [discriminate | discriminate | discriminate | exact Htracks | reflexivity].
Defined.

(** The first tracker of the process, for queue [q]. *)
Lemma newMetrics_zeroes_counters_witness :
  (∀ type, type ∈ [addLabel; updateLabel; deleteLabel] →
     counterValue ["q"; type] init = None ∨ counterValue ["q"; type] init = Some 0%N)
  ∧ ∃ (t : metrics nat) r',
      newMetrics "q" init = Some (Some t, r')
      ∧ sentTimes t = ∅
      ∧ tracks "q" t r'
      ∧ readings t r' = (Some 0%N, Some 0%N, Some 0%N).
Proof.
  assert (∀ type, type ∈ [addLabel; updateLabel; deleteLabel] →
            counterValue ["q"; type] init = None
            ∨ counterValue ["q"; type] init = Some 0%N) as Hfresh.
  { intros type _. left. reflexivity. }
  split; [exact Hfresh|].
  exact (newMetrics_zeroes_counters "q" init Hfresh).
Defined.

(** An event of a kind that the [switch] does not name. *)
Lemma send_unknown_kind_is_timed_witness :
  evType (sample_event "Bookmark") ≠ Added
  ∧ evType (sample_event "Bookmark") ≠ Modified
  ∧ evType (sample_event "Bookmark") ≠ Deleted
  ∧ sentTimes sample_tracker !! 7%nat = None
  ∧ observations (latencyObserver sample_tracker) sample_registry = Some []
  ∧ ∃ t1 t2 r2,
      send (Some sample_tracker) (sample_event "Bookmark") 100 sample_registry
      = (Some t1, sample_registry)
      ∧ sentTimes t1 !! 7%nat = Some 100
      ∧ receive (Some t1) 7%nat 2500000100 sample_registry = (Some t2, r2)
      ∧ latency r2
        = <[ ["q"] := [Seconds (Since 2500000100 100)] ]> (latency sample_registry)
      ∧ adds r2 = adds sample_registry
      ∧ sentTimes t2 !! 7%nat = None.
Proof.
  split_and!; try discriminate; try reflexivity.
  apply (send_unknown_kind_is_timed sample_tracker sample_registry
           (sample_event "Bookmark") 100 2500000100 []);
    try discriminate; reflexivity.
Defined.

(** C8 as the specification words it fails: the histogram family is not
    named [broker_queue_queue_duration_seconds]. *)
Lemma exported_schema_counterexample :
  ¬ exported_schema nat string "broker_queue_queue_duration_seconds".
Proof.
  unfold exported_schema. intros (_ & _ & _ & _ & Hname & _).
  vm_compute in Hname. discriminate Hname.
Qed.

(** ** The further properties at the sample values *)

(** A second tracker for queue [q] while identity 7 is pending in the first. *)
Lemma newMetrics_again_witness :
  tracks "q" sample_pending sample_registry
  ∧ newMetrics "q" sample_registry
    = Some (Some (set_sentTimes (λ _, ∅) sample_pending), sample_registry).
Proof.
  assert (tracks "q" sample_pending sample_registry) as Htracks.
  { unfold tracks. split_and!; try reflexivity.
    - exists 0%N. reflexivity.
    - exists 0%N. reflexivity.
    - exists 0%N. reflexivity.
    - exists []. reflexivity. }
  split; [exact Htracks|].
  exact (newMetrics_again "q" sample_pending sample_registry Htracks).
Defined.

(** Identity 7, pending since 40, through a [send] of itself and calls for
    identity 8. *)
Lemma pending_until_received_witness :
  (∀ x, x ∈ [(0%nat, Send (sample_event "Added"), 100);
             (1%nat, Send sample_other, 150); (1%nat, Receive 8%nat, 200)] →
        x.1.2 ≠ Receive 7%nat)
  ∧ sentTimes (sample_pending, sample_registry).1 !! 7%nat = Some 40
  ∧ sentTimes
      (replay [(0%nat, Send (sample_event "Added"), 100);
               (1%nat, Send sample_other, 150); (1%nat, Receive 8%nat, 200)]
         (sample_pending, sample_registry)).1 !! 7%nat = Some 40.
Proof.
  assert (∀ x, x ∈ [(0%nat, Send (sample_event "Added"), 100);
                    (1%nat, Send sample_other, 150); (1%nat, Receive 8%nat, 200)] →
               x.1.2 ≠ Receive 7%nat) as Hno.
  { intros x Hx. rewrite !elem_of_cons, elem_of_nil in Hx.
    destruct Hx as [-> | [-> | [-> | []]]]; discriminate. }
  split; [exact Hno|]. split; [reflexivity|].
  apply (pending_until_received (sample_pending, sample_registry) _ 7%nat 40 Hno).
  reflexivity.
Defined.

(** Identity 7 through calls for identity 8 and a [receive] of itself. *)
Lemma settled_until_sent_witness :
  (∀ x, x ∈ [(1%nat, Send sample_other, 150); (0%nat, Receive 7%nat, 200)] →
        is_send x.1.2 = true → call_ident x.1.2 ≠ 7%nat)
  ∧ sentTimes (sample_tracker, sample_registry).1 !! 7%nat = None
  ∧ sentTimes
      (replay [(1%nat, Send sample_other, 150); (0%nat, Receive 7%nat, 200)]
         (sample_tracker, sample_registry)).1 !! 7%nat = None.
Proof.
  assert (∀ x, x ∈ [(1%nat, Send sample_other, 150); (0%nat, Receive 7%nat, 200)] →
               is_send x.1.2 = true → call_ident x.1.2 ≠ 7%nat) as Hno.
  { intros x Hx. rewrite !elem_of_cons, elem_of_nil in Hx.
    destruct Hx as [-> | [-> | []]]; simpl; intros; discriminate. }
  split; [exact Hno|]. split; [reflexivity|].
  apply (settled_until_sent (sample_tracker, sample_registry) _ 7%nat Hno).
  reflexivity.
Defined.

(** The four sample calls: one [send] of each kind. *)
Lemma sends_are_counted_witness :
  (Added : string) ≠ Modified ∧ (Added : string) ≠ Deleted
  ∧ (Modified : string) ≠ Deleted
  ∧ tracks "q" sample_tracker sample_registry
  ∧ readings sample_tracker sample_registry = (Some 0%N, Some 0%N, Some 0%N)
  ∧ readings sample_tracker (replay sample_history (sample_tracker, sample_registry)).2
    = (Some (0 + N.of_nat (count_calls (sends_kind Added) sample_history))%N,
       Some (0 + N.of_nat (count_calls (sends_kind Modified) sample_history))%N,
       Some (0 + N.of_nat (count_calls (sends_kind Deleted) sample_history))%N).
Proof.
  assert (tracks "q" sample_tracker sample_registry) as Htracks.
  { unfold tracks. split_and!; try reflexivity.
    - exists 0%N. reflexivity.
    - exists 0%N. reflexivity.
    - exists 0%N. reflexivity.
    - exists []. reflexivity. }
  split; [discriminate|]. split; [discriminate|]. split; [discriminate|].
  split; [exact Htracks|]. split; [reflexivity|].
  apply (sends_are_counted "q" sample_tracker sample_registry sample_history
           0%N 0%N 0%N);
    [discriminate | discriminate | discriminate | exact Htracks | reflexivity].
Defined.

(** The four sample calls: three [send] calls, one [receive]. *)
Lemma observations_are_matched_witness :
  observations (latencyObserver sample_tracker) sample_registry = Some []
  ∧ ∃ obs,
      observations (latencyObserver sample_tracker)
        (replay sample_history (sample_tracker, sample_registry)).2
      = Some ([] ++ obs)%list
      ∧ (length obs ≤ count_calls is_receive sample_history)%nat
      ∧ (length obs
         + size (sentTimes (replay sample_history (sample_tracker, sample_registry)).1)
         ≤ size (sentTimes sample_tracker) + count_calls is_send sample_history)%nat.
Proof.
  split; [reflexivity|].
  apply (observations_are_matched sample_tracker sample_registry sample_history []).
  reflexivity.
Defined.

(** A [send] of identity 7 and a [receive] of identity 8. *)
Lemma send_commutes_witness :
  ident (sample_event "Added") ≠ call_ident (Receive (Kind:=string) 8%nat)
  ∧ exec (Send (sample_event "Added")) 100
      (exec (Receive 8%nat) 200 (sample_tracker, sample_registry))
    = exec (Receive 8%nat) 200
        (exec (Send (sample_event "Added")) 100 (sample_tracker, sample_registry)).
Proof.
  split; [discriminate|].
  apply (send_commutes (sample_tracker, sample_registry) (sample_event "Added")
           100 (Receive 8%nat) 200).
  discriminate.
Defined.


(** Goroutine 1 waits for the mutex that goroutine 0 holds. *)
Lemma no_deadlock_witness :
  let c := run [(0%nat, 10); (1%nat, 20)]
             (start sample_progs sample_tracker sample_registry) in
  goroutines c !! 1%nat
  = Some {| at_point := AtLock; todo := [Receive 7%nat] |}
  ∧ ∃ i n,
      (n ≤ 5)%nat
      ∧ let c' := run (replicate n (i, 100)) c in
        Mutex c' = false ∧ length (history c') = S (length (history c)).
Proof.
  split; [reflexivity|].
  apply (no_deadlock sample_progs sample_tracker sample_registry
           [(0%nat, 10); (1%nat, 20)] 100 1%nat
           {| at_point := AtLock; todo := [Receive 7%nat] |}).
  - reflexivity.
  - discriminate.
Defined.

(** Two items, their goroutines scheduled in turn. *)
Lemma stress_settles_witness :
  let items := [sample_event "Added"; sample_other] in
  let c := run sample_turns
             (start (item_prog <$> items) sample_tracker sample_registry) in
  NoDup (ident <$> items)
  ∧ finished c
  ∧ sentTimes (obj c) = sentTimes sample_tracker
  ∧ ∃ obs, observations (latencyObserver sample_tracker) (reg c)
           = Some ([] ++ obs)%list
           ∧ length obs = length items.
Proof.
  cbv zeta.
  assert (NoDup (ident <$> [sample_event "Added"; sample_other])) as Hnd.
  { apply (bool_decide_unpack _). reflexivity. }
  assert (finished (run sample_turns
            (start (item_prog <$> [sample_event "Added"; sample_other])
               sample_tracker sample_registry))) as Hfin.
  { intros i g. vm_compute. destruct i as [|[|i]]; intros [= <-]; reflexivity. }
  split; [exact Hnd|]. split; [exact Hfin|].
  apply (stress_settles [sample_event "Added"; sample_other]
           (sample_tracker, sample_registry) [] Hnd).
  - intros e _. reflexivity.
  - reflexivity.
  - exact Hfin.
Defined.

(** The sample execution of the two goroutines. *)
Lemma counts_survive_concurrency_witness :
  let c := run sample_schedule
             (start sample_progs sample_tracker sample_registry) in
  Mutex c = false
  ∧ readings sample_tracker (reg c)
    = (Some (0 + N.of_nat (count_calls (sends_kind Added) (history c)))%N,
       Some (0 + N.of_nat (count_calls (sends_kind Modified) (history c)))%N,
       Some (0 + N.of_nat (count_calls (sends_kind Deleted) (history c)))%N).
Proof.
  split; [reflexivity|].
  apply (counts_survive_concurrency "q" sample_progs sample_tracker
           sample_registry sample_schedule 0%N 0%N 0%N);
    try discriminate; try reflexivity.
  unfold tracks. split_and!; try reflexivity.
  - exists 0%N. reflexivity.
  - exists 0%N. reflexivity.
  - exists 0%N. reflexivity.
  - exists []. reflexivity.
Defined.

(** The tracker of queue [q], calls on another tracker and a construction
    for another queue. *)
Lemma children_persist_witness :
  tracks "q" sample_tracker sample_registry
  ∧ (∀ (t' : metrics nat) (cl : call nat string) now,
       tracks "q" sample_tracker (exec cl now (t', sample_registry)).2)
  ∧ (∀ name', ∃ (m : option (metrics nat)) r',
       newMetrics name' sample_registry = Some (m, r')
       ∧ tracks "q" sample_tracker r').
Proof.
  assert (tracks "q" sample_tracker sample_registry) as Htracks.
  { unfold tracks. split_and!; try reflexivity.
    - exists 0%N. reflexivity.
    - exists 0%N. reflexivity.
    - exists 0%N. reflexivity.
    - exists []. reflexivity. }
  split; [exact Htracks|].
  exact (children_persist "q" sample_tracker sample_registry Htracks).
Defined.

(** The four sample calls on the tracker of queue [q], seen from queue [p]. *)
Lemma queues_are_isolated_witness :
  "q" ≠ "p"
  ∧ tracks "q" sample_tracker sample_registry_pq
  ∧ tracks "p" sample_tracker_p sample_registry_pq
  ∧ readings sample_tracker_p
      (replay sample_history (sample_tracker, sample_registry_pq)).2
    = readings sample_tracker_p sample_registry_pq
  ∧ observations (latencyObserver sample_tracker_p)
      (replay sample_history (sample_tracker, sample_registry_pq)).2
    = observations (latencyObserver sample_tracker_p) sample_registry_pq.
Proof.
  assert (tracks "q" sample_tracker sample_registry_pq) as Hq.
  { unfold tracks. split_and!; try reflexivity.
    - exists 3%N. reflexivity.
    - exists 0%N. reflexivity.
    - exists 1%N. reflexivity.
    - exists []. reflexivity. }
  assert (tracks "p" sample_tracker_p sample_registry_pq) as Hp.
  { unfold tracks. split_and!; try reflexivity.
    - exists 2%N. reflexivity.
    - exists 5%N. reflexivity.
    - exists 0%N. reflexivity.
    - exists [Seconds 1500]. reflexivity. }
  split; [discriminate|]. split; [exact Hq|]. split; [exact Hp|].
  apply (queues_are_isolated "q" "p" sample_tracker sample_tracker_p
           sample_registry_pq sample_history); [discriminate | exact Hq | exact Hp].
Defined.
